(** * refine_wordlist: a shallow embedding of [refine_wordlist.py]

    The program curates a word list.  It reads candidate words from
    [oldlist.txt], accepts long words on its own, asks a human about the
    short ones, and appends every decision to [newlist.txt] (accepted) or
    [rejects.txt] (rejected).

    Modelling choices.
    - A Python [str] is a [string]; a character is a code point below 256
      (Latin-1), which is closed under [str.lower] and covers every
      character [str.isspace] accepts in that range.
    - A file is its text, [None] when the file does not exist.  Reading in
      text mode applies Python's universal-newlines translation; writing is
      POSIX ([\n] is written as it is).
    - [inputYesNo] belongs to the package [easy_user_input], which the
      program imports: it is a parameter, a function of everything the
      console has shown so far, of the message and of the default.
    - [print] and the prompt leave events on a console transcript. *)

From Stdlib Require Import String Ascii List Bool Arith Lia.
Import ListNotations.
Open Scope string_scope.
Open Scope nat_scope.

(** ** Python's [str] primitives *)

Module PyStr.

Definition LF : ascii := "010"%char.
Definition CR : ascii := "013"%char.

(** The text of one line break, Python's ["\n"]. *)
Definition nl : string := String LF "".

(** [str.isspace] on one character: code points 9..13, 28..32, 133, 160. *)
Definition isspace (c : ascii) : bool :=
  let n := nat_of_ascii c in
  ((9 <=? n) && (n <=? 13)) || ((28 <=? n) && (n <=? 32))
  || (n =? 133) || (n =? 160).

(** [str.lower] on one character: A..Z and the Latin-1 capitals
    192..222 (without the multiplication sign 215) move up by 32. *)
Definition lower_char (c : ascii) : ascii :=
  let n := nat_of_ascii c in
  if ((65 <=? n) && (n <=? 90))
     || ((192 <=? n) && (n <=? 222) && negb (n =? 215))
  then ascii_of_nat (n + 32) else c.

Fixpoint lower (s : string) : string :=
  match s with
  | "" => ""
  | String c s' => String (lower_char c) (lower s')
  end.

Fixpoint lstrip (s : string) : string :=
  match s with
  | "" => ""
  | String c s' => if isspace c then lstrip s' else s
  end.

Fixpoint rstrip (s : string) : string :=
  match s with
  | "" => ""
  | String c s' =>
      match rstrip s' with
      | "" => if isspace c then "" else String c ""
      | r => String c r
      end
  end.

(** [s.strip()]: leading and trailing white space removed. *)
Definition strip (s : string) : string := rstrip (lstrip s).

Fixpoint startswith (s p : string) : bool :=
  match p, s with
  | "", _ => true
  | String _ _, "" => false
  | String a p', String b s' => Ascii.eqb a b && startswith s' p'
  end.

Definition endswith (s suffix : string) : bool :=
  (String.length suffix <=? String.length s)
  && String.eqb
       (substring (String.length s - String.length suffix) (String.length suffix) s)
       suffix.

(** [s.removesuffix(suffix)]: [s[:-len(suffix)]] when [suffix] is not
    empty and ends [s], and [s] otherwise. *)
Definition removesuffix (s suffix : string) : string :=
  if negb (String.eqb suffix "") && endswith s suffix
  then substring 0 (String.length s - String.length suffix) s
  else s.

(** [a in b] on strings: [a] occurs in [b] as a contiguous block. *)
Fixpoint str_in (a b : string) : bool :=
  startswith b a
  || match b with
     | "" => false
     | String _ b' => str_in a b'
     end.

(** [x in l] and [x not in l] on a list of strings (comparison by [==]). *)
Definition list_in (x : string) (l : list string) : bool :=
  existsb (String.eqb x) l.

Definition not_in (x : string) (l : list string) : bool :=
  negb (list_in x l).

End PyStr.
Import PyStr.

(** ** Text files *)

Module TextIO.

(** Python exceptions the program can meet in this model. *)
Inductive Exn : Type :=
| FileNotFoundError (filename : string).

(** A computation that returns a value or raises. *)
Inductive Res (A : Type) : Type :=
| Ok (a : A)
| Raise (e : Exn).
Arguments Ok {A} a.
Arguments Raise {A} e.

Definition bind {A B : Type} (c : Res A) (k : A -> Res B) : Res B :=
  match c with
  | Ok a => k a
  | Raise e => Raise e
  end.

(** [try: c  except FileNotFoundError: h] *)
Definition try_except {A : Type} (c : Res A) (h : Res A) : Res A :=
  match c with
  | Ok a => Ok a
  | Raise (FileNotFoundError _) => h
  end.

(** [open(name, "r")] on a file that holds [Some text] or is absent. *)
Definition open_r (name : string) (file : option string) : Res string :=
  match file with
  | Some text => Ok text
  | None => Raise (FileNotFoundError name)
  end.

(** [open(name, "a")]: the file is created empty when it is absent. *)
Definition open_a (file : option string) : string :=
  match file with
  | Some text => text
  | None => ""
  end.

(** Universal newlines, the default of text mode: ["\r\n"] and a lone
    ["\r"] are read as ["\n"]. *)
Fixpoint universal_newlines (raw : string) : string :=
  match raw with
  | "" => ""
  | String c rest =>
      if Ascii.eqb c CR then
        match rest with
        | String d _ =>
            if Ascii.eqb d LF then universal_newlines rest
            else String LF (universal_newlines rest)
        | "" => String LF ""
        end
      else String c (universal_newlines rest)
  end.

(** The lines of a translated text, each with its ["\n"] (the last line
    may lack it). *)
Fixpoint splitlines_keepends (text : string) : list string :=
  match text with
  | "" => []
  | String c rest =>
      if Ascii.eqb c LF then String c "" :: splitlines_keepends rest
      else match splitlines_keepends rest with
           | [] => [String c ""]
           | line :: lines => String c line :: lines
           end
  end.

(** [f.readlines()] on a file opened with [open(name, "r")]. *)
Definition readlines (raw : string) : list string :=
  splitlines_keepends (universal_newlines raw).

End TextIO.
Import TextIO.

Notation "x <- c ;; k" := (bind c (fun x => k))
  (at level 61, c at next level, right associativity).

(** ** The program *)

Definition SOURCE_WORDLIST_NAME : string := "oldlist.txt".
Definition REJECTED_WORDS_NAME : string := "rejects.txt".
Definition NEW_WORDS_NAME : string := "newlist.txt".

(** The directory of the program: the three files it touches. *)
Record Files : Type := mkFiles {
  oldlist_txt : option string;
  rejects_txt : option string;
  newlist_txt : option string
}.

(** What the console shows: the two advisory [print]s (the event carries
    the list, not its [repr]) and a call of [inputYesNo] with its answer. *)
Inductive Event : Type :=
| PrintRelatedAccepted (relatedAccepted : list string)
| PrintRelatedRejected (relatedRejected : list string)
| AskYesNo (message : string) (default : bool) (answer : bool).

(** The variables of [main] while the loop runs; [outFile] and
    [rejectFile] stand for the text of the two files opened for append. *)
Record State : Type := mkState {
  outFile : string;
  rejectFile : string;
  alreadyAccepted : list string;
  alreadyRejected : list string;
  console : list Event
}.

Definition outFile_write (st : State) (text : string) : State :=
  mkState (outFile st ++ text) (rejectFile st)
          (alreadyAccepted st) (alreadyRejected st) (console st).

Definition rejectFile_write (st : State) (text : string) : State :=
  mkState (outFile st) (rejectFile st ++ text)
          (alreadyAccepted st) (alreadyRejected st) (console st).

Definition alreadyAccepted_append (st : State) (word : string) : State :=
  mkState (outFile st) (rejectFile st)
          (alreadyAccepted st ++ [word])%list (alreadyRejected st) (console st).

Definition alreadyRejected_append (st : State) (word : string) : State :=
  mkState (outFile st) (rejectFile st)
          (alreadyAccepted st) (alreadyRejected st ++ [word])%list (console st).

Definition show (st : State) (ev : Event) : State :=
  mkState (outFile st) (rejectFile st)
          (alreadyAccepted st) (alreadyRejected st) (console st ++ [ev])%list.

(** [findRelatedWords]: the words of [wordlist] that are a part of
    [target] or have [target] as a part. *)
Definition findRelatedWords (target : string) (wordlist : list string) : list string :=
  let target := lower (strip target) in
  fold_left
    (fun output word =>
       let lowerword := lower word in
       if str_in target lowerword || str_in lowerword target
       then (output ++ [word])%list
       else output)
    (filter (fun x => 2 <? String.length x) (map (fun x => strip x) wordlist))
    [].

(** [getRejectWords] and [getAcceptedWords]: the lines of the history
    file, the empty list when the file is absent. *)
Definition getRejectWords (fs : Files) : Res (list string) :=
  try_except
    (inFile <- open_r REJECTED_WORDS_NAME (rejects_txt fs) ;;
     Ok (readlines inFile))
    (Ok []).

Definition getAcceptedWords (fs : Files) : Res (list string) :=
  try_except
    (inFile <- open_r NEW_WORDS_NAME (newlist_txt fs) ;;
     Ok (readlines inFile))
    (Ok []).

(** The double quote character of the prompt. *)
Definition dquote : string := String "034" "".

(** The f-string of the prompt: [accept "<srcWord.strip()>"?]. *)
Definition accept_message (srcWord : string) : string :=
  "accept " ++ dquote ++ strip srcWord ++ dquote ++ "?".

Section Curator.

(** [easy_user_input.eui.inputYesNo]: console so far, message, default. *)
Variable inputYesNo : list Event -> string -> bool -> bool.

(** The body of the [for srcWord in inFile.readlines()] loop. *)
Definition main_loop_body (st : State) (srcWord : string) : State :=
  if not_in srcWord (alreadyAccepted st) && not_in srcWord (alreadyRejected st)
  then
    if 3 <? String.length (removesuffix (strip srcWord) "'s") then
      alreadyAccepted_append (outFile_write st srcWord) srcWord
    else
      let relatedAccepted := findRelatedWords srcWord (alreadyAccepted st) in
      let relatedRejected := findRelatedWords srcWord (alreadyRejected st) in
      let st := if 0 <? List.length relatedAccepted
                then show st (PrintRelatedAccepted relatedAccepted) else st in
      let st := if 0 <? List.length relatedRejected
                then show st (PrintRelatedRejected relatedRejected) else st in
      let answer := inputYesNo (console st) (accept_message srcWord) true in
      let st := show st (AskYesNo (accept_message srcWord) true answer) in
      if answer then
        alreadyAccepted_append (outFile_write st srcWord) srcWord
      else
        alreadyRejected_append (rejectFile_write st srcWord) srcWord
  else st.

Definition main_loop (st : State) (lines : list string) : State :=
  fold_left main_loop_body lines st.

(** [main]: the directory after the run and what the console showed. *)
Definition main (fs : Files) : Res (Files * list Event) :=
  alreadyAccepted <- getAcceptedWords fs ;;
  alreadyRejected <- getRejectWords fs ;;
  inFile <- open_r SOURCE_WORDLIST_NAME (oldlist_txt fs) ;;
  let rejectFile0 := open_a (rejects_txt fs) in
  let outFile0 := open_a (newlist_txt fs) in
  let st := main_loop
              (mkState outFile0 rejectFile0 alreadyAccepted alreadyRejected [])
              (readlines inFile) in
  Ok (mkFiles (oldlist_txt fs) (Some (rejectFile st)) (Some (outFile st)),
      console st).

End Curator.

(** A user who presses enter at every prompt: the default is returned. *)
Definition press_enter : list Event -> string -> bool -> bool :=
  fun _ _ default => default.

(** A user who answers no at every prompt. *)
Definition say_no : list Event -> string -> bool -> bool :=
  fun _ _ _ => false.

(** White space only (the empty string included). *)
Fixpoint blank (s : string) : bool :=
  match s with
  | "" => true
  | String c rest => isspace c && blank rest
  end.

Definition first_char (s : string) : option ascii :=
  match s with
  | "" => None
  | String c _ => Some c
  end.

Fixpoint last_char (s : string) : option ascii :=
  match s with
  | "" => None
  | String c rest =>
      match rest with
      | "" => Some c
      | String _ _ => last_char rest
      end
  end.

(** The character, if there is one, is not white space. *)
Definition not_space (c : option ascii) : Prop :=
  match c with
  | Some c => isspace c = false
  | None => True
  end.

(** ** Vocabulary of the specification *)

(** [a] is a substring of [b]. *)
Definition Substring (a b : string) : Prop :=
  exists pre post, b = pre ++ a ++ post.

(** The relatedness test in the words of the specification: the entry is
    longer than 2 characters once stripped, and one of the two lowered,
    stripped texts occurs in the other. *)
Definition Related (target entry : string) : Prop :=
  2 < String.length (strip entry)
  /\ (Substring (lower (strip entry)) (lower (strip target))
      \/ Substring (lower (strip target)) (lower (strip entry))).

(** The test [findRelatedWords] applies to one entry of [wordlist]. *)
Definition keeps (target entry : string) : bool :=
  (2 <? String.length (strip entry))
  && (str_in (lower (strip target)) (lower (strip entry))
      || str_in (lower (strip entry)) (lower (strip target))).

(** The three outcomes of one source word, read off the state before and
    after the loop body. *)
Definition accepted_step (before : State) (word : string) (after : State) : Prop :=
  outFile after = outFile before ++ word
  /\ alreadyAccepted after = (alreadyAccepted before ++ [word])%list
  /\ rejectFile after = rejectFile before
  /\ alreadyRejected after = alreadyRejected before.

Definition rejected_step (before : State) (word : string) (after : State) : Prop :=
  rejectFile after = rejectFile before ++ word
  /\ alreadyRejected after = (alreadyRejected before ++ [word])%list
  /\ outFile after = outFile before
  /\ alreadyAccepted after = alreadyAccepted before.

Definition skipped_step (before : State) (word : string) (after : State) : Prop :=
  after = before
  /\ (In word (alreadyAccepted before) \/ In word (alreadyRejected before)).

Definition exactly_one (A B C : Prop) : Prop :=
  (A /\ ~ B /\ ~ C) \/ (~ A /\ B /\ ~ C) \/ (~ A /\ ~ B /\ C).

(** No word is in both lists. *)
Definition disjoint (l1 l2 : list string) : Prop :=
  forall x, In x l1 -> ~ In x l2.

(** An event that is an advisory [print], not a prompt. *)
Definition is_advisory (ev : Event) : bool :=
  match ev with
  | AskYesNo _ _ _ => false
  | _ => true
  end.

(** A word on a line of its own, as [readlines] delivers it. *)
Definition line (word : string) : string := word ++ nl.

(** A state with no history and a silent console. *)
Definition fresh : State := mkState "" "" [] [] [].

(** A text that ends with a line break. *)
Definition ends_nl (text : string) : Prop :=
  exists body, text = body ++ nl.

(** A text to which whole lines can be appended: empty, or ending with a
    line break. *)
Definition terminated (text : string) : Prop :=
  text = "" \/ ends_nl text.

(** A history file in the format of the specification (one word per line,
    newline-terminated), or no file at all. *)
Definition history_ok (file : option string) : Prop :=
  terminated (open_a file).

(** A string that [readlines] gives back as one line. *)
Definition single_line (w : string) : Prop :=
  readlines w = [w].

(** Lines as [readlines] delivers them: each is a single line, and all but
    the last end with a line break. *)
Fixpoint lines_ok (lines : list string) : Prop :=
  match lines with
  | [] => True
  | w :: rest =>
      single_line w
      /\ match rest with
         | [] => True
         | _ :: _ => ends_nl w /\ lines_ok rest
         end
  end.

Fixpoint no_cr (text : string) : bool :=
  match text with
  | "" => true
  | String c rest => negb (Ascii.eqb c CR) && no_cr rest
  end.

(** The two lists are what [readlines] finds in the two files. *)
Definition in_step (st : State) : Prop :=
  readlines (outFile st) = alreadyAccepted st
  /\ readlines (rejectFile st) = alreadyRejected st.

(** The state in which [main] enters its loop. *)
Definition initial (fs : Files) : State :=
  mkState (open_a (newlist_txt fs)) (open_a (rejects_txt fs))
          (readlines (open_a (newlist_txt fs)))
          (readlines (open_a (rejects_txt fs))) [].

(** The directory with an empty file put in place of an absent history
    file. *)
Definition with_empty_history (fs : Files) : Files :=
  mkFiles (oldlist_txt fs)
          (Some (open_a (rejects_txt fs)))
          (Some (open_a (newlist_txt fs))).

(** What a file gains when the words are written to it one after the
    other. *)
Fixpoint written (words : list string) : string :=
  match words with
  | [] => ""
  | w :: rest => w ++ written rest
  end.

(** What a run may show for a given source list: an advisory print carries
    a list that is not empty, and a prompt has default yes and asks about a
    source word that is too short to be accepted without asking. *)
Definition event_of_run (source : list string) (ev : Event) : Prop :=
  match ev with
  | PrintRelatedAccepted l => l <> []
  | PrintRelatedRejected l => l <> []
  | AskYesNo message default _ =>
      default = true
      /\ exists w, In w source
                   /\ message = accept_message w
                   /\ String.length (removesuffix (strip w) "'s") <= 3
  end.

(** A text with no line break character in it. *)
Fixpoint no_break (text : string) : bool :=
  match text with
  | "" => true
  | String c rest => negb (Ascii.eqb c LF) && negb (Ascii.eqb c CR) && no_break rest
  end.

(** ** Paths ([os.path] on POSIX) *)

Module PosixPath.

Definition sep : ascii := "/"%char.

(** [p.rfind("/") + 1]: the position after the last slash, 0 when there is
    none. *)
Fixpoint rfind_sep_succ (p : string) : nat :=
  match p with
  | "" => 0
  | String c rest =>
      match rfind_sep_succ rest with
      | 0 => if Ascii.eqb c sep then 1 else 0
      | S k => S (S k)
      end
  end.

(** [s.rstrip("/")] *)
Fixpoint rstrip_sep (s : string) : string :=
  match s with
  | "" => ""
  | String c rest =>
      match rstrip_sep rest with
      | "" => if Ascii.eqb c sep then "" else String c ""
      | r => String c r
      end
  end.

(** [s == "/" * len(s)] *)
Fixpoint only_sep (s : string) : bool :=
  match s with
  | "" => true
  | String c rest => Ascii.eqb c sep && only_sep rest
  end.

(** [os.path.split(p)]: the text up to the last slash, without trailing
    slashes unless it is made of slashes only, and the text after it. *)
Definition split (p : string) : string * string :=
  let i := rfind_sep_succ p in
  let head := substring 0 i p in
  let tail := substring i (String.length p - i) p in
  let head := if negb (String.eqb head "") && negb (only_sep head)
              then rstrip_sep head else head in
  (head, tail).

(** [os.path.join(a, b)] *)
Definition join (a b : string) : string :=
  if startswith b "/" then b
  else if String.eqb a "" || endswith a "/" then a ++ b
  else a ++ "/" ++ b.

End PosixPath.

Section Location.

(** The path of the program file, Python's [__file__]. *)
Variable __file__ : string.

(** [currentDirPath]: the directory the program file is in. *)
Definition currentDirPath : string := fst (PosixPath.split __file__).

(** [neighborFilepath]: the path of a file in that directory. *)
Definition neighborFilepath (filename : string) : string :=
  PosixPath.join currentDirPath filename.

End Location.

(** A file name with no slash in it. *)
Fixpoint no_sep (name : string) : bool :=
  match name with
  | "" => true
  | String c rest => negb (Ascii.eqb c PosixPath.sep) && no_sep rest
  end.

Example strip_ex : strip (" cat's" ++ nl) = "cat's" /\ strip (String "009" " a b " ++ nl) = "a b".
Proof. split; reflexivity. Qed.
Example removesuffix_ex : removesuffix "cat's" "'s" = "cat" /\ removesuffix "'s" "'s" = "" /\ removesuffix "cats" "'s" = "cats" /\ removesuffix "s" "'s" = "s" /\ removesuffix "abc" "" = "abc".
Proof. repeat split; reflexivity. Qed.
Example str_in_ex : str_in "at" "cats" = true /\ str_in "" "" = true /\ str_in "ca" "c a" = false /\ str_in "cats" "cat" = false.
Proof. repeat split; reflexivity. Qed.
Example lower_ex : lower "CaT's Z@[" = "cat's z@[".
Proof. reflexivity. Qed.

Example readlines_ex :
  readlines ("ab" ++ String CR nl ++ nl ++ "c" ++ String CR "d") = ["ab" ++ nl; nl; "c" ++ nl; "d"].
Proof. reflexivity. Qed.
Example findRelatedWords_ex :
  findRelatedWords ("cat" ++ nl) ["cats" ++ nl; "dog" ++ nl; "at" ++ nl; "Cat" ++ nl] = ["cats"; "Cat"].
Proof. reflexivity. Qed.
Example main_ex :
  main press_enter (mkFiles (Some ("cats" ++ nl ++ "cat" ++ nl ++ "dog" ++ nl)) None None)
  = Ok (mkFiles (Some ("cats" ++ nl ++ "cat" ++ nl ++ "dog" ++ nl)) (Some "")
                (Some ("cats" ++ nl ++ "cat" ++ nl ++ "dog" ++ nl)),
        [PrintRelatedAccepted ["cats"];
         AskYesNo (accept_message "cat") true true;
         AskYesNo (accept_message "dog") true true]).
Proof. reflexivity. Qed.

(** ** Strings *)

Lemma append_nil_r (s : string) : s ++ "" = s.
Proof. induction s as [|c s IH]; simpl; [reflexivity | now rewrite IH]. Qed.

Lemma append_assoc (a b c : string) : (a ++ b) ++ c = a ++ b ++ c.
Proof. induction a as [|x a IH]; simpl; [reflexivity | now rewrite IH]. Qed.

Lemma length_append (a b : string) :
  String.length (a ++ b) = String.length a + String.length b.
Proof. induction a as [|x a IH]; simpl; [reflexivity | now rewrite IH]. Qed.

Lemma startswith_spec (p s : string) :
  startswith s p = true <-> exists post, s = p ++ post.
Proof.
  revert s; induction p as [|a p IH]; intros [|b s]; simpl.
  - split; [intros _; now exists "" | reflexivity].
  - split; [intros _; now exists (String b s) | reflexivity].
  - split; [discriminate | intros [post H]; discriminate].
  - rewrite andb_true_iff, Ascii.eqb_eq, IH. split.
    + intros [-> [post ->]]. now exists post.
    + intros [post H]. injection H as -> ->. split; [reflexivity | now exists post].
Qed.

Lemma str_in_here (a b : string) : startswith b a = true -> str_in a b = true.
Proof. intros H. destruct b; simpl in *; rewrite H; reflexivity. Qed.

Lemma str_in_later (a : string) (c : ascii) (b : string) :
  str_in a b = true -> str_in a (String c b) = true.
Proof. intros H. cbn [str_in]. rewrite H. apply orb_true_r. Qed.

(** Python's [a in b] decides the substring relation. *)
Lemma str_in_spec (a b : string) : str_in a b = true <-> Substring a b.
Proof.
  split.
  - induction b as [|c b IH]; cbn [str_in]; rewrite orb_true_iff.
    + intros [H | H]; [|discriminate].
      apply startswith_spec in H as [post H]. now exists "", post.
    + intros [H | H].
      * apply startswith_spec in H as [post H]. now exists "", post.
      * destruct (IH H) as (pre & post & ->). now exists (String c pre), post.
  - intros (pre & post & ->). induction pre as [|c pre IH]; simpl append.
    + apply str_in_here, startswith_spec. now exists post.
    + now apply str_in_later.
Qed.

Lemma str_in_empty (b : string) : str_in "" b = true.
Proof. apply str_in_here. destruct b; reflexivity. Qed.

Lemma list_in_spec (x : string) (l : list string) : list_in x l = true <-> In x l.
Proof.
  unfold list_in. rewrite existsb_exists. split.
  - intros (y & Hy & E). apply String.eqb_eq in E. now subst.
  - intros H. exists x. split; [assumption | apply String.eqb_refl].
Qed.

Lemma not_in_spec (x : string) (l : list string) : not_in x l = true <-> ~ In x l.
Proof.
  unfold not_in. rewrite negb_true_iff, <- not_true_iff_false, list_in_spec. tauto.
Qed.

(** ** The string primitives do what Python documents *)

Lemma lstrip_spec (s : string) :
  exists pre, s = pre ++ lstrip s /\ blank pre = true
              /\ not_space (first_char (lstrip s)).
Proof.
  induction s as [|c s (pre & E & B & F)].
  - now exists "".
  - cbn [lstrip]. destruct (isspace c) eqn:Ec.
    + exists (String c pre). cbn. rewrite Ec, B, <- E. now split.
    + exists "". cbn. now split.
Qed.

Lemma rstrip_cons (c : ascii) (s : string) :
  rstrip (String c s)
  = match rstrip s with
    | "" => if isspace c then "" else String c ""
    | String d r => String c (String d r)
    end.
Proof. reflexivity. Qed.

Lemma rstrip_spec (s : string) :
  exists post, s = rstrip s ++ post /\ blank post = true
               /\ not_space (last_char (rstrip s)).
Proof.
  induction s as [|c s (post & E & B & L)].
  - now exists "".
  - rewrite rstrip_cons. destruct (rstrip s) as [|d r].
    + cbn in E. subst post. destruct (isspace c) eqn:Ec.
      * exists (String c s). cbn. now rewrite Ec, B.
      * exists s. cbn. now split.
    + exists post. split; [cbn [append] in *; now rewrite <- E | now split].
Qed.

Lemma rstrip_keeps_head (c : ascii) (s : string) :
  isspace c = false -> first_char (rstrip (String c s)) = Some c.
Proof.
  intros Ec. rewrite rstrip_cons. destruct (rstrip s); [now rewrite Ec | reflexivity].
Qed.

(** [s.strip()] is [s] without a blank prefix and a blank suffix, and it
    neither starts nor ends with white space. *)
Lemma strip_spec (s : string) :
  exists pre post,
    s = pre ++ strip s ++ post
    /\ blank pre = true /\ blank post = true
    /\ not_space (first_char (strip s)) /\ not_space (last_char (strip s)).
Proof.
  unfold strip.
  destruct (lstrip_spec s) as (pre & E & Bpre & F).
  destruct (rstrip_spec (lstrip s)) as (post & E' & Bpost & L).
  exists pre, post. rewrite <- E', <- E.
  split; [reflexivity|]. split; [assumption|]. split; [assumption|].
  split; [|assumption].
  destruct (lstrip s) as [|c t]; [exact I|].
  cbn in F. now rewrite rstrip_keeps_head.
Qed.

Lemma blank_app (a b : string) : blank (a ++ b) = blank a && blank b.
Proof.
  induction a as [|c a IH]; [reflexivity|].
  cbn. now rewrite IH, andb_assoc.
Qed.

(** A line is stripped to nothing exactly when it is white space only. *)
Lemma strip_empty_iff (s : string) : strip s = "" <-> blank s = true.
Proof.
  split.
  - intros E. destruct (strip_spec s) as (pre & post & Es & Bpre & Bpost & _).
    rewrite E in Es. rewrite Es, blank_app. cbn. now rewrite Bpre, Bpost.
  - induction s as [|c s IH]; [reflexivity|].
    cbn. rewrite andb_true_iff. intros [Ec B]. unfold strip. cbn [lstrip].
    rewrite Ec. now apply IH.
Qed.

Lemma substring_to_end (a b : string) :
  substring (String.length a) (String.length b) (a ++ b) = b.
Proof.
  induction a as [|c a IH]; cbn; [|exact IH].
  induction b as [|d b IHb]; cbn; [reflexivity | now rewrite IHb].
Qed.

Lemma substring_from_start (a b : string) :
  substring 0 (String.length a) (a ++ b) = a.
Proof.
  induction a as [|c a IH]; cbn; [now destruct b | now rewrite IH].
Qed.

Lemma substring_split (k : nat) (s : string) :
  k <= String.length s ->
  s = substring 0 k s ++ substring k (String.length s - k) s.
Proof.
  revert s; induction k as [|k IH]; intros s Hk.
  - rewrite Nat.sub_0_r.
    assert (forall t, substring 0 (String.length t) t = t) as Hall
      by (induction t as [|c t IHt]; cbn; [reflexivity | now rewrite IHt]).
    rewrite Hall. now destruct s.
  - destruct s as [|c s]; cbn in Hk; [lia|].
    cbn. f_equal. apply IH. lia.
Qed.

(** [s.endswith(suffix)] decides that [s] ends with [suffix]. *)
Lemma endswith_spec (s suffix : string) :
  endswith s suffix = true <-> exists pre, s = pre ++ suffix.
Proof.
  unfold endswith. rewrite andb_true_iff, Nat.leb_le, String.eqb_eq. split.
  - intros [Hlen E].
    exists (substring 0 (String.length s - String.length suffix) s).
    pose proof (substring_split (String.length s - String.length suffix) s) as H.
    replace (String.length s - (String.length s - String.length suffix))
      with (String.length suffix) in H by lia.
    rewrite E in H. apply H. lia.
  - intros [pre ->]. rewrite length_append. split; [lia|].
    replace (String.length pre + String.length suffix - String.length suffix)
      with (String.length pre) by lia.
    apply substring_to_end.
Qed.

(** [s.removesuffix(suffix)] drops a suffix that is there and leaves any
    other string alone. *)
Lemma removesuffix_spec (s suffix : string) :
  (forall pre, s = pre ++ suffix -> removesuffix s suffix = pre)
  /\ ((forall pre, s <> pre ++ suffix) -> removesuffix s suffix = s).
Proof.
  unfold removesuffix. split.
  - intros pre ->. destruct (String.eqb_spec suffix "") as [-> | Hne]; cbn.
    + now rewrite append_nil_r.
    + assert (endswith (pre ++ suffix) suffix = true) as ->
        by (apply endswith_spec; now exists pre).
      rewrite length_append.
      replace (String.length pre + String.length suffix - String.length suffix)
        with (String.length pre) by lia.
      apply substring_from_start.
  - intros Hno. destruct (endswith s suffix) eqn:E.
    + apply endswith_spec in E as [pre E]. now apply Hno in E.
    + now rewrite andb_false_r.
Qed.

(** ** [findRelatedWords] *)

Section RelatedWords.

Variable target : string.

(** The loop that appends to [output] is a filter. *)
Lemma collect_is_filter (test : string -> bool) (words output : list string) :
  fold_left (fun out word => if test word then (out ++ [word])%list else out)
            words output
  = (output ++ filter test words)%list.
Proof.
  revert output; induction words as [|w words IH]; intros output; simpl.
  - now rewrite app_nil_r.
  - rewrite IH. destruct (test w); [|reflexivity].
    now rewrite <- app_assoc.
Qed.

Lemma filter_filter_map (g f : string -> bool) (h : string -> string) (l : list string) :
  filter f (filter g (map h l)) = map h (filter (fun x => g (h x) && f (h x)) l).
Proof.
  induction l as [|x l IH]; simpl; [reflexivity|].
  destruct (g (h x)); simpl; [|assumption].
  destruct (f (h x)); simpl; [now rewrite IH | assumption].
Qed.

(** [findRelatedWords] returns the stripped form of every entry that
    passes [keeps], in the order of [wordlist]. *)
Lemma findRelatedWords_filter (wordlist : list string) :
  findRelatedWords target wordlist = map strip (filter (keeps target) wordlist).
Proof.
  unfold findRelatedWords.
  rewrite (collect_is_filter
             (fun word => str_in (lower (strip target)) (lower word)
                          || str_in (lower word) (lower (strip target)))).
  simpl app. rewrite filter_filter_map. reflexivity.
Qed.

Lemma keeps_spec (entry : string) : keeps target entry = true <-> Related target entry.
Proof.
  unfold keeps, Related.
  rewrite andb_true_iff, orb_true_iff, Nat.ltb_lt, !str_in_spec. tauto.
Qed.

Lemma findRelatedWords_one (w : string) :
  findRelatedWords target [w] = if keeps target w then [strip w] else [].
Proof. rewrite findRelatedWords_filter. simpl. now destruct (keeps target w). Qed.

End RelatedWords.

(** C4, amended.  For every target and every word [w],
    [findRelatedWords(target, [w])] returns the one-element list
    [[w.strip()]] if and only if [lower(target.strip())] is a substring of
    [lower(w.strip())] or the other way round, and [len(w.strip()) > 2]. *)
Theorem related_word_symmetry (target w : string) :
  findRelatedWords target [w] = [strip w]
  <-> (Substring (lower (strip target)) (lower (strip w))
       \/ Substring (lower (strip w)) (lower (strip target)))
      /\ 2 < String.length (strip w).
Proof.
  rewrite findRelatedWords_one.
  destruct (keeps target w) eqn:K.
  - apply keeps_spec in K as [Hlen Hsub]. tauto.
  - split; [discriminate|].
    intros [Hsub Hlen].
    assert (keeps target w = true) as K' by (apply keeps_spec; split; tauto).
    congruence.
Qed.

(** C4 as it is worded fails in both directions.  With the target read
    from a file (["cat\n"]) and the word ["cats"], the list [[w]] is
    returned although neither lowered text occurs in the other; with the
    target ["cat"] and the word ["cats\n"], the worded condition holds and
    the list returned is [["cats"]], not [[w]]. *)
Lemma related_word_symmetry_as_worded_fails :
  (findRelatedWords ("cat" ++ nl) ["cats"] = ["cats"]
   /\ ~ (Substring (lower ("cat" ++ nl)) (lower "cats")
         \/ Substring (lower "cats") (lower ("cat" ++ nl))))
  /\ ((Substring (lower "cat") (lower ("cats" ++ nl))
       /\ 2 < String.length (strip ("cats" ++ nl)))
      /\ findRelatedWords "cat" ["cats" ++ nl] = ["cats"]
      /\ ["cats"] <> ["cats" ++ nl]).
Proof.
  split; [split; [reflexivity|] | split; [split|split]].
  - intros [H | H]; apply str_in_spec in H; vm_compute in H; discriminate H.
  - apply str_in_spec. reflexivity.
  - vm_compute. lia.
  - reflexivity.
  - discriminate.
Qed.

(** C6, amended.  [findRelatedWords(target, wordlist)] returns the stripped
    forms of exactly the entries of [wordlist] whose stripped form is
    longer than 2 and whose lowered stripped form is a substring of the
    lowered stripped target or contains it, in the order of [wordlist]. *)
Theorem findRelatedWords_exact (target : string) (wordlist : list string) :
  exists keep : string -> bool,
    (forall entry, keep entry = true <-> Related target entry)
    /\ findRelatedWords target wordlist = map strip (filter keep wordlist).
Proof.
  exists (keeps target). split.
  - apply keeps_spec.
  - apply findRelatedWords_filter.
Qed.

(** C6 as it is worded fails: the entry ["cats\n"] is related to the target
    ["cat"], and what is returned is its stripped form ["cats"], which is
    not an entry of the word list. *)
Lemma findRelatedWords_exact_as_worded_fails :
  Related "cat" ("cats" ++ nl)
  /\ findRelatedWords "cat" ["cats" ++ nl] = ["cats"]
  /\ ~ In "cats" ["cats" ++ nl].
Proof.
  split; [|split].
  - apply keeps_spec. reflexivity.
  - reflexivity.
  - intros [H | []]. discriminate H.
Qed.

(** C10, amended.  For every target whose [strip()] is empty,
    [findRelatedWords(target, wordlist)] returns the stripped form of every
    entry of [wordlist] whose stripped form is longer than 2, in order. *)
Theorem blank_target_related_to_all (target : string) (wordlist : list string) :
  strip target = "" ->
  findRelatedWords target wordlist
  = map strip (filter (fun entry => 2 <? String.length (strip entry)) wordlist).
Proof.
  intros Hblank. rewrite findRelatedWords_filter. f_equal.
  apply filter_ext. intros entry. unfold keeps.
  rewrite Hblank. cbn [lower]. rewrite str_in_empty. apply andb_true_r.
Qed.

Lemma blank_target_related_to_all_witness :
  strip (" " ++ nl) = ""
  /\ findRelatedWords (" " ++ nl) ["cats" ++ nl; "at" ++ nl; "dog" ++ nl]
     = ["cats"; "dog"].
Proof.
  split; [reflexivity|].
  apply (blank_target_related_to_all (" " ++ nl) ["cats" ++ nl; "at" ++ nl; "dog" ++ nl]).
  reflexivity.
Defined.

(** C10 as it is worded fails: for the blank line ["\n"] the entry
    ["cats\n"] qualifies, and the list returned holds ["cats"], not the
    entry. *)
Lemma blank_target_related_to_all_as_worded_fails :
  strip nl = ""
  /\ filter (fun entry => 2 <? String.length (strip entry)) ["cats" ++ nl; "at" ++ nl]
     = ["cats" ++ nl]
  /\ findRelatedWords nl ["cats" ++ nl; "at" ++ nl] = ["cats"]
  /\ ["cats"] <> ["cats" ++ nl].
Proof. repeat split; try reflexivity. discriminate. Qed.

(** ** The loop body *)

Section LoopBody.

Variable inputYesNo : list Event -> string -> bool -> bool.

Lemma body_skip (st : State) (w : string) :
  In w (alreadyAccepted st) \/ In w (alreadyRejected st) -> main_loop_body inputYesNo st w = st.
Proof.
  intros H. unfold main_loop_body.
  destruct (not_in w (alreadyAccepted st)) eqn:Ea; [|reflexivity].
  destruct (not_in w (alreadyRejected st)) eqn:Er; [|reflexivity].
  apply not_in_spec in Ea, Er. tauto.
Qed.

Lemma body_fresh_guard (st : State) (w : string) :
  ~ In w (alreadyAccepted st) -> ~ In w (alreadyRejected st) ->
  not_in w (alreadyAccepted st) && not_in w (alreadyRejected st) = true.
Proof.
  intros Ha Hr. apply andb_true_iff. split; now apply not_in_spec.
Qed.

Lemma body_auto (st : State) (w : string) :
  ~ In w (alreadyAccepted st) -> ~ In w (alreadyRejected st) ->
  3 < String.length (removesuffix (strip w) "'s") ->
  main_loop_body inputYesNo st w = alreadyAccepted_append (outFile_write st w) w.
Proof.
  intros Ha Hr Hlen. unfold main_loop_body.
  rewrite body_fresh_guard by assumption.
  apply Nat.ltb_lt in Hlen. now rewrite Hlen.
Qed.

(** What the prompt branch does: up to two advisory prints, one prompt
    with default yes, and the word goes where the answer says. *)
Lemma body_prompt (st : State) (w : string) :
  ~ In w (alreadyAccepted st) -> ~ In w (alreadyRejected st) ->
  String.length (removesuffix (strip w) "'s") <= 3 ->
  exists (shown : list Event) (answer : bool),
    forallb is_advisory shown = true
    /\ answer = inputYesNo (console st ++ shown)%list (accept_message w) true
    /\ console (main_loop_body inputYesNo st w)
       = (console st ++ shown ++ [AskYesNo (accept_message w) true answer])%list
    /\ (if answer then accepted_step st w (main_loop_body inputYesNo st w)
        else rejected_step st w (main_loop_body inputYesNo st w)).
Proof.
  intros Ha Hr Hlen. unfold main_loop_body.
  rewrite body_fresh_guard by assumption.
  apply Nat.ltb_ge in Hlen. rewrite Hlen.
  set (ra := findRelatedWords w (alreadyAccepted st)).
  set (rr := findRelatedWords w (alreadyRejected st)).
  exists ((if 0 <? List.length ra then [PrintRelatedAccepted ra] else [])
          ++ (if 0 <? List.length rr then [PrintRelatedRejected rr] else []))%list.
  eexists. split; [|split; [reflexivity|]].
  - destruct (0 <? List.length ra), (0 <? List.length rr); reflexivity.
  - destruct (0 <? List.length ra), (0 <? List.length rr); cbn;
      rewrite ?app_nil_r, <- ?app_assoc; cbn;
      match goal with |- context [if ?b then _ else _] => destruct b end;
      cbn; rewrite ?app_nil_r, <- ?app_assoc; repeat split; reflexivity.
Qed.

Lemma list_snoc_neq (l : list string) (x : string) : (l ++ [x])%list <> l.
Proof.
  intros H. apply (f_equal (@List.length string)) in H.
  rewrite length_app in H. simpl in H. lia.
Qed.

Lemma accepted_not_rejected (st st' : State) (w : string) :
  accepted_step st w st' -> ~ rejected_step st w st'.
Proof.
  intros (_ & Ha & _ & _) (_ & _ & _ & Ha'). rewrite Ha' in Ha.
  symmetry in Ha. now apply list_snoc_neq in Ha.
Qed.

Lemma accepted_not_skipped (st st' : State) (w : string) :
  accepted_step st w st' -> ~ skipped_step st w st'.
Proof.
  intros (_ & Ha & _ & _) [E _]. subst st'.
  symmetry in Ha. now apply list_snoc_neq in Ha.
Qed.

Lemma rejected_not_skipped (st st' : State) (w : string) :
  rejected_step st w st' -> ~ skipped_step st w st'.
Proof.
  intros (_ & Hr & _ & _) [E _]. subst st'.
  symmetry in Hr. now apply list_snoc_neq in Hr.
Qed.

(** Every step is a skip of a known word, or files a new word as
    accepted, or files it as rejected. *)
Lemma body_cases (st : State) (w : string) :
  skipped_step st w (main_loop_body inputYesNo st w)
  \/ (~ In w (alreadyAccepted st) /\ ~ In w (alreadyRejected st)
      /\ (accepted_step st w (main_loop_body inputYesNo st w) \/ rejected_step st w (main_loop_body inputYesNo st w))).
Proof.
  destruct (list_in w (alreadyAccepted st)) eqn:Ea.
  { left. apply list_in_spec in Ea. split; [apply body_skip|]; tauto. }
  destruct (list_in w (alreadyRejected st)) eqn:Er.
  { left. apply list_in_spec in Er. split; [apply body_skip|]; tauto. }
  assert (~ In w (alreadyAccepted st)) as Ha
    by (rewrite <- list_in_spec; congruence).
  assert (~ In w (alreadyRejected st)) as Hr
    by (rewrite <- list_in_spec; congruence).
  right. split; [assumption | split; [assumption|]].
  destruct (Nat.lt_ge_cases 3 (String.length (removesuffix (strip w) "'s")))
    as [Hlong | Hshort].
  - left. rewrite body_auto by assumption. repeat split.
  - destruct (body_prompt st w Ha Hr Hshort) as (shown & answer & _ & _ & _ & H).
    destruct answer; [left | right]; assumption.
Qed.

Lemma body_exactly_one (st : State) (w : string) :
  exactly_one (accepted_step st w (main_loop_body inputYesNo st w))
              (rejected_step st w (main_loop_body inputYesNo st w))
              (skipped_step st w (main_loop_body inputYesNo st w)).
Proof.
  unfold exactly_one.
  destruct (body_cases st w) as [Hs | (_ & _ & [Ha | Hr])].
  - right; right. split; [|split]; [| |assumption]; intros H.
    + now apply accepted_not_skipped in H.
    + now apply rejected_not_skipped in H.
  - left. split; [assumption|]. split.
    + now apply accepted_not_rejected.
    + now apply accepted_not_skipped.
  - right; left. split; [|split]; [|assumption|].
    + intros H. now apply accepted_not_rejected in H.
    + now apply rejected_not_skipped.
Qed.

End LoopBody.

(** ** The loop *)

Section Loop.

Variable inputYesNo : list Event -> string -> bool -> bool.

Lemma loop_app (st : State) (xs ys : list string) :
  main_loop inputYesNo st (xs ++ ys)
  = main_loop inputYesNo (main_loop inputYesNo st xs) ys.
Proof. apply fold_left_app. Qed.

Lemma body_keeps_accepted (st : State) (w x : string) :
  In x (alreadyAccepted st) -> In x (alreadyAccepted (main_loop_body inputYesNo st w)).
Proof.
  intros H.
  destruct (body_cases inputYesNo st w)
    as [[E _] | (_ & _ & [(_ & E & _) | (_ & _ & _ & E)])]; rewrite E;
    try assumption.
  apply in_or_app. now left.
Qed.

Lemma body_keeps_rejected (st : State) (w x : string) :
  In x (alreadyRejected st) -> In x (alreadyRejected (main_loop_body inputYesNo st w)).
Proof.
  intros H.
  destruct (body_cases inputYesNo st w)
    as [[E _] | (_ & _ & [(_ & _ & _ & E) | (_ & E & _)])]; rewrite E;
    try assumption.
  apply in_or_app. now left.
Qed.

(** A word once decided stays decided for the rest of the run. *)
Lemma loop_keeps_decided (later : list string) (st : State) (x : string) :
  In x (alreadyAccepted st) \/ In x (alreadyRejected st) ->
  In x (alreadyAccepted (main_loop inputYesNo st later))
  \/ In x (alreadyRejected (main_loop inputYesNo st later)).
Proof.
  revert st; induction later as [|w later IH]; intros st H; [exact H|].
  apply IH. destruct H as [H | H].
  - left. now apply body_keeps_accepted.
  - right. now apply body_keeps_rejected.
Qed.

(** After its step a word is in one of the two lists. *)
Lemma body_decides (st : State) (w : string) :
  In w (alreadyAccepted (main_loop_body inputYesNo st w))
  \/ In w (alreadyRejected (main_loop_body inputYesNo st w)).
Proof.
  destruct (body_cases inputYesNo st w)
    as [[E H] | (_ & _ & [(_ & E & _) | (_ & E & _)])].
  - now rewrite E.
  - left. rewrite E. apply in_or_app. right. now left.
  - right. rewrite E. apply in_or_app. right. now left.
Qed.

Lemma loop_decides (source : list string) (st : State) (w : string) :
  In w source ->
  In w (alreadyAccepted (main_loop inputYesNo st source))
  \/ In w (alreadyRejected (main_loop inputYesNo st source)).
Proof.
  revert st; induction source as [|x source IH]; intros st H; [destruct H|].
  destruct H as [-> | H].
  - apply (loop_keeps_decided source). apply body_decides.
  - now apply IH.
Qed.

Lemma body_disjoint (st : State) (w : string) :
  disjoint (alreadyAccepted st) (alreadyRejected st) ->
  disjoint (alreadyAccepted (main_loop_body inputYesNo st w))
           (alreadyRejected (main_loop_body inputYesNo st w)).
Proof.
  intros D.
  destruct (body_cases inputYesNo st w)
    as [[E _] | (Ha & Hr & [(_ & Ea & _ & Er) | (_ & Er & _ & Ea)])].
  - now rewrite E.
  - rewrite Ea, Er. intros x Hx Hx'. apply in_app_or in Hx as [Hx | [<- | []]].
    + exact (D x Hx Hx').
    + exact (Hr Hx').
  - rewrite Ea, Er. intros x Hx Hx'. apply in_app_or in Hx' as [Hx' | [<- | []]].
    + exact (D x Hx Hx').
    + exact (Ha Hx).
Qed.

Lemma loop_disjoint (source : list string) (st : State) :
  disjoint (alreadyAccepted st) (alreadyRejected st) ->
  disjoint (alreadyAccepted (main_loop inputYesNo st source))
           (alreadyRejected (main_loop inputYesNo st source)).
Proof.
  revert st; induction source as [|w source IH]; intros st D; [exact D|].
  apply IH. now apply body_disjoint.
Qed.

(** A run over words that are all decided already changes nothing. *)
Lemma loop_all_known (source : list string) (st : State) :
  (forall w, In w source -> In w (alreadyAccepted st) \/ In w (alreadyRejected st)) ->
  main_loop inputYesNo st source = st.
Proof.
  induction source as [|w source IH]; intros H; [reflexivity|].
  unfold main_loop. simpl. rewrite body_skip by (apply H; now left).
  apply IH. intros x Hx. apply H. now right.
Qed.

End Loop.

(** C1, amended.  For every source word [w] with
    [len(w.strip().removesuffix("'s")) > 3] (trimmed first, then the
    possessive suffix removed) that is in neither list, the loop body
    appends [w] to the output file and to the accepted list, issues no
    prompt and prints nothing, and leaves the reject file and the rejected
    list as they were. *)
Theorem auto_accept (inputYesNo : list Event -> string -> bool -> bool)
    (st : State) (w : string) :
  3 < String.length (removesuffix (strip w) "'s") ->
  ~ In w (alreadyAccepted st) -> ~ In w (alreadyRejected st) ->
  main_loop_body inputYesNo st w
  = mkState (outFile st ++ w) (rejectFile st)
            (alreadyAccepted st ++ [w])%list (alreadyRejected st) (console st).
Proof.
  intros Hlen Ha Hr. now rewrite body_auto.
Qed.

Lemma auto_accept_witness :
  3 < String.length (removesuffix (strip ("cats" ++ nl)) "'s")
  /\ main_loop_body say_no fresh ("cats" ++ nl)
     = mkState ("cats" ++ nl) "" ["cats" ++ nl] [] [].
Proof.
  split; [vm_compute; lia|].
  apply (auto_accept say_no fresh ("cats" ++ nl)).
  - vm_compute; lia.
  - intros [].
  - intros [].
Defined.

(** C1 as it is worded fails: for ["cat's\n"] the worded test (suffix
    removed before trimming) gives length 5, the word is in no list, and
    the program prompts; a user who says no has it rejected. *)
Lemma auto_accept_as_worded_fails :
  3 < String.length (strip (removesuffix ("cat's" ++ nl) "'s"))
  /\ ~ In ("cat's" ++ nl) (alreadyAccepted fresh)
  /\ ~ In ("cat's" ++ nl) (alreadyRejected fresh)
  /\ main_loop_body say_no fresh ("cat's" ++ nl)
     = mkState "" ("cat's" ++ nl) [] ["cat's" ++ nl]
               [AskYesNo (accept_message ("cat's" ++ nl)) true false].
Proof.
  split; [vm_compute; lia|]. split; [intros []|]. split; [intros []|]. reflexivity.
Qed.

(** C5.  A source word that is in the accepted list or in the rejected
    list is skipped: the loop body returns the state it was given (no
    prompt, nothing written to either file, nothing appended to either
    list).  Within one run, once [w] has been processed, a later occurrence
    of [w], after any words in between, is skipped in the same way. *)
Theorem skip_invariant (inputYesNo : list Event -> string -> bool -> bool)
    (st : State) (w : string) :
  (In w (alreadyAccepted st) \/ In w (alreadyRejected st) ->
   main_loop_body inputYesNo st w = st)
  /\ (forall between : list string,
        let st' := main_loop inputYesNo (main_loop_body inputYesNo st w) between in
        main_loop_body inputYesNo st' w = st').
Proof.
  split.
  - apply body_skip.
  - intros between st'. apply body_skip.
    apply loop_keeps_decided, body_decides.
Qed.

Lemma skip_invariant_witness :
  In ("cat" ++ nl) (alreadyRejected (mkState "" ("cat" ++ nl) [] ["cat" ++ nl] []))
  /\ main_loop_body press_enter (mkState "" ("cat" ++ nl) [] ["cat" ++ nl] []) ("cat" ++ nl)
     = mkState "" ("cat" ++ nl) [] ["cat" ++ nl] [].
Proof.
  split; [now left|].
  apply (proj1 (skip_invariant press_enter
                  (mkState "" ("cat" ++ nl) [] ["cat" ++ nl] []) ("cat" ++ nl))).
  right. now left.
Defined.

(** C8.  For a source word that is in neither list and is not
    auto-accepted, the loop body calls the prompt once, with the message
    [accept "<word>"?] and default yes, after at most the advisory prints.
    The word is appended to the output file and the accepted list if and
    only if the answer is yes, to the reject file and the rejected list if
    and only if the answer is no, and exactly one of the two happens. *)
Theorem prompt_routing (inputYesNo : list Event -> string -> bool -> bool)
    (st : State) (w : string) :
  ~ In w (alreadyAccepted st) -> ~ In w (alreadyRejected st) ->
  String.length (removesuffix (strip w) "'s") <= 3 ->
  let st' := main_loop_body inputYesNo st w in
  let to_accepted :=
    outFile st' = outFile st ++ w
    /\ alreadyAccepted st' = (alreadyAccepted st ++ [w])%list in
  let to_rejected :=
    rejectFile st' = rejectFile st ++ w
    /\ alreadyRejected st' = (alreadyRejected st ++ [w])%list in
  exists (shown : list Event) (answer : bool),
    forallb is_advisory shown = true
    /\ answer = inputYesNo (console st ++ shown)%list (accept_message w) true
    /\ console st'
       = (console st ++ shown ++ [AskYesNo (accept_message w) true answer])%list
    /\ (answer = true <-> to_accepted)
    /\ (answer = false <-> to_rejected)
    /\ ((to_accepted /\ ~ to_rejected) \/ (~ to_accepted /\ to_rejected)).
Proof.
  intros Ha Hr Hshort st' to_accepted to_rejected.
  destruct (body_prompt inputYesNo st w Ha Hr Hshort)
    as (shown & answer & Hadv & Hans & Hcon & Hstep).
  exists shown, answer. split; [exact Hadv|]. split; [exact Hans|]. split; [exact Hcon|].
  fold st' in Hstep. clear Hans Hcon. subst to_accepted to_rejected.
  destruct answer.
  - destruct Hstep as (Ho & Hl & Hf & Hk).
    assert (~ (rejectFile st' = rejectFile st ++ w
               /\ alreadyRejected st' = (alreadyRejected st ++ [w])%list)) as N.
    { intros [_ E]. rewrite Hk in E. symmetry in E. now apply list_snoc_neq in E. }
    split; [tauto|]. split; [|tauto].
    split; [discriminate | intros H; now apply N in H].
  - destruct Hstep as (Hf & Hk & Ho & Hl).
    assert (~ (outFile st' = outFile st ++ w
               /\ alreadyAccepted st' = (alreadyAccepted st ++ [w])%list)) as N.
    { intros [_ E]. rewrite Hl in E. symmetry in E. now apply list_snoc_neq in E. }
    split; [|split; [tauto|tauto]].
    split; [discriminate | intros H; now apply N in H].
Qed.

Lemma prompt_routing_witness :
  String.length (removesuffix (strip (line "dog")) "'s") <= 3
  /\ exists (shown : list Event) (answer : bool),
       console (main_loop_body say_no fresh (line "dog"))
       = (console fresh ++ shown ++ [AskYesNo (accept_message (line "dog")) true answer])%list
       /\ (answer = false <->
           rejectFile (main_loop_body say_no fresh (line "dog")) = rejectFile fresh ++ line "dog"
           /\ alreadyRejected (main_loop_body say_no fresh (line "dog"))
              = (alreadyRejected fresh ++ [line "dog"])%list).
Proof.
  split; [vm_compute; lia|].
  destruct (prompt_routing say_no fresh (line "dog"))
    as (shown & answer & _ & _ & Hcon & _ & Hno & _).
  - intros [].
  - intros [].
  - vm_compute; lia.
  - exists shown, answer. split; [exact Hcon | exact Hno].
Defined.

(** C9.  The skip test is equality of the raw strings: the loop body
    leaves the state as it was if and only if the very same string is an
    element of the accepted or of the rejected list.  With the history
    [["cat\n"]] the source word ["cat"] (no line terminator) is not
    skipped: the advisory print and the prompt are issued for it. *)
Theorem skip_test_exact (inputYesNo : list Event -> string -> bool -> bool) :
  (forall (st : State) (w : string),
      main_loop_body inputYesNo st w = st
      <-> In w (alreadyAccepted st) \/ In w (alreadyRejected st))
  /\ (exists history : list string,
        In ("cat" ++ nl) history
        /\ main_loop_body inputYesNo (mkState ("cat" ++ nl) "" history [] []) "cat"
           <> mkState ("cat" ++ nl) "" history [] []
        /\ exists answer : bool,
             console (main_loop_body inputYesNo (mkState ("cat" ++ nl) "" history [] []) "cat")
             = [PrintRelatedAccepted ["cat"]; AskYesNo (accept_message "cat") true answer]).
Proof.
  assert (forall (st : State) (w : string),
             main_loop_body inputYesNo st w = st
             <-> In w (alreadyAccepted st) \/ In w (alreadyRejected st)) as Hiff.
  { intros st w. split; [|apply body_skip].
    intros E.
    destruct (body_cases inputYesNo st w) as [[_ H] | (_ & _ & [H | H])];
      [exact H | exfalso ..].
    - apply (accepted_not_skipped st _ w H). rewrite E. split; [reflexivity|].
      destruct H as (_ & H & _). rewrite E in H. symmetry in H.
      now apply list_snoc_neq in H.
    - destruct H as (_ & H & _). rewrite E in H. symmetry in H.
      now apply list_snoc_neq in H. }
  split; [exact Hiff|].
  exists ["cat" ++ nl]. split; [now left|]. split.
  - intros E. apply Hiff in E. cbn in E.
    destruct E as [[E | []] | []]. discriminate E.
  - exists (inputYesNo [PrintRelatedAccepted ["cat"]] (accept_message "cat") true).
    cbv. destruct (inputYesNo _ _ _); reflexivity.
Qed.

(** C3.  When the two lists are disjoint at the start of the loop, they
    are disjoint at its end; every occurrence of a word in the source list
    has exactly one of the three outcomes accepted, rejected and skipped as
    a duplicate; and every source word ends in exactly one of the two
    lists. *)
Theorem partition (inputYesNo : list Event -> string -> bool -> bool)
    (st : State) (source : list string) :
  disjoint (alreadyAccepted st) (alreadyRejected st) ->
  let final := main_loop inputYesNo st source in
  disjoint (alreadyAccepted final) (alreadyRejected final)
  /\ (forall (pre : list string) (w : string) (post : list string),
        source = (pre ++ w :: post)%list ->
        let before := main_loop inputYesNo st pre in
        let after := main_loop_body inputYesNo before w in
        exactly_one (accepted_step before w after)
                    (rejected_step before w after)
                    (skipped_step before w after))
  /\ (forall w : string,
        In w source ->
        (In w (alreadyAccepted final) /\ ~ In w (alreadyRejected final))
        \/ (~ In w (alreadyAccepted final) /\ In w (alreadyRejected final))).
Proof.
  intros D final.
  assert (disjoint (alreadyAccepted final) (alreadyRejected final)) as Dfinal
    by now apply loop_disjoint.
  split; [exact Dfinal|]. split.
  - intros pre w post _ before after. apply body_exactly_one.
  - intros w Hw.
    destruct (loop_decides inputYesNo source st w Hw) as [H | H]; fold final in H.
    + left. split; [exact H | exact (Dfinal w H)].
    + right. split; [|exact H]. intros H'. exact (Dfinal w H' H).
Qed.

Lemma partition_witness :
  disjoint (alreadyAccepted fresh) (alreadyRejected fresh)
  /\ disjoint
       (alreadyAccepted (main_loop say_no fresh [line "cats"; line "cat"; line "cats"]))
       (alreadyRejected (main_loop say_no fresh [line "cats"; line "cat"; line "cats"])).
Proof.
  split; [intros x []|].
  apply (partition say_no fresh [line "cats"; line "cat"; line "cats"]).
  intros x [].
Defined.

(** ** Reading lines *)

Lemma universal_newlines_cons (c : ascii) (rest : string) :
  universal_newlines (String c rest)
  = if Ascii.eqb c CR then
      match rest with
      | String d _ =>
          if Ascii.eqb d LF then universal_newlines rest
          else String LF (universal_newlines rest)
      | "" => String LF ""
      end
    else String c (universal_newlines rest).
Proof. reflexivity. Qed.

Lemma universal_newlines_no_cr (raw : string) : no_cr (universal_newlines raw) = true.
Proof.
  induction raw as [|c rest IH]; [reflexivity|].
  rewrite universal_newlines_cons.
  destruct (Ascii.eqb c CR) eqn:Ec.
  - destruct rest as [|d rest']; [reflexivity|].
    destruct (Ascii.eqb d LF); [exact IH|].
    cbn [no_cr]. now rewrite IH.
  - cbn [no_cr]. now rewrite Ec, IH.
Qed.

Lemma universal_newlines_id (text : string) :
  no_cr text = true -> universal_newlines text = text.
Proof.
  induction text as [|c rest IH]; [reflexivity|].
  cbn [no_cr]. rewrite andb_true_iff, negb_true_iff. intros [Ec Hrest].
  rewrite universal_newlines_cons, Ec, IH by assumption. reflexivity.
Qed.

(** Translation goes through a concatenation whose left part ends with a
    line break, and the translated left part still ends with one. *)
Lemma universal_newlines_app_nl (body rest : string) :
  universal_newlines ((body ++ nl) ++ rest)
  = universal_newlines (body ++ nl) ++ universal_newlines rest
  /\ ends_nl (universal_newlines (body ++ nl)).
Proof.
  induction body as [|c body [IH1 [tail IH2]]].
  - split; [reflexivity | now exists ""].
  - assert (exists d more, body ++ nl = String d more) as (d & more & Ed)
      by (unfold nl; destruct body; simpl; eauto).
    cbn [append]. rewrite !universal_newlines_cons.
    destruct (Ascii.eqb c CR).
    + rewrite Ed in *. cbn [append] in *.
      destruct (Ascii.eqb d LF).
      * split; [exact IH1 | now exists tail].
      * rewrite IH1, IH2. split; [reflexivity | now exists (String LF tail)].
    + rewrite IH1, IH2. split; [reflexivity | now exists (String c tail)].
Qed.

Lemma splitlines_nil (text : string) : splitlines_keepends text = [] -> text = "".
Proof.
  destruct text as [|c rest]; [reflexivity|]. cbn [splitlines_keepends].
  destruct (Ascii.eqb c LF); [discriminate|].
  destruct (splitlines_keepends rest); discriminate.
Qed.

Lemma splitlines_app_nl (body rest : string) :
  splitlines_keepends ((body ++ nl) ++ rest)
  = (splitlines_keepends (body ++ nl) ++ splitlines_keepends rest)%list.
Proof.
  induction body as [|c body IH]; [reflexivity|].
  cbn [append splitlines_keepends]. rewrite IH.
  destruct (Ascii.eqb c LF); [reflexivity|].
  destruct (splitlines_keepends (body ++ nl)) as [|l ls] eqn:E; [|reflexivity].
  apply splitlines_nil in E. destruct body; discriminate E.
Qed.

(** Appending to a terminated text appends to its lines. *)
Lemma readlines_app (text more : string) :
  terminated text ->
  readlines (text ++ more) = (readlines text ++ readlines more)%list.
Proof.
  intros [-> | [body ->]]; [reflexivity|].
  unfold readlines.
  destruct (universal_newlines_app_nl body more) as [-> [tail ->]].
  apply splitlines_app_nl.
Qed.

Lemma terminated_app (text w : string) : ends_nl w -> terminated (text ++ w).
Proof.
  intros [body ->]. right. exists (text ++ body). now rewrite append_assoc.
Qed.

Lemma lines_ok_cons (w : string) (rest : list string) :
  lines_ok (w :: rest)
  <-> single_line w /\ (rest = [] \/ (ends_nl w /\ lines_ok rest)).
Proof.
  cbn [lines_ok]. destruct rest as [|x rest].
  - split; [intros [H _]; split; [exact H | now left] | intros [H _]; now split].
  - split.
    + intros [H1 H2]. split; [exact H1 | now right].
    + intros [H1 [H2 | H2]]; [discriminate | now split].
Qed.

Lemma single_line_cons (c : ascii) (w : string) :
  Ascii.eqb c CR = false -> Ascii.eqb c LF = false ->
  single_line w -> single_line (String c w).
Proof.
  unfold single_line, readlines. intros Ec El H.
  rewrite universal_newlines_cons, Ec. cbn [splitlines_keepends].
  now rewrite El, H.
Qed.

Lemma ends_nl_cons (c : ascii) (w : string) : ends_nl w -> ends_nl (String c w).
Proof. intros [body ->]. now exists (String c body). Qed.

Lemma splitlines_lines_ok (text : string) :
  no_cr text = true -> lines_ok (splitlines_keepends text).
Proof.
  induction text as [|c rest IH]; [intros _; exact I|].
  cbn [no_cr]. rewrite andb_true_iff, negb_true_iff. intros [Ec Hrest].
  specialize (IH Hrest). cbn [splitlines_keepends].
  destruct (Ascii.eqb c LF) eqn:El.
  - apply Ascii.eqb_eq in El. subst c.
    apply lines_ok_cons. split; [reflexivity|].
    destruct (splitlines_keepends rest); [now left | right].
    split; [now exists "" | exact IH].
  - destruct (splitlines_keepends rest) as [|w ws].
    + split; [|exact I]. unfold single_line, readlines.
      rewrite universal_newlines_cons, Ec. cbn. now rewrite El.
    + apply lines_ok_cons in IH as [Hw Hws].
      apply lines_ok_cons. split; [now apply single_line_cons|].
      destruct Hws as [-> | [Hnl Hok]]; [now left | right].
      split; [now apply ends_nl_cons | exact Hok].
Qed.

Lemma readlines_lines_ok (raw : string) : lines_ok (readlines raw).
Proof. apply splitlines_lines_ok, universal_newlines_no_cr. Qed.

(** ** Files and lists in step *)

Section FilesInStep.

Variable inputYesNo : list Event -> string -> bool -> bool.

Lemma body_in_step (st : State) (w : string) :
  in_step st -> terminated (outFile st) -> terminated (rejectFile st) ->
  single_line w ->
  in_step (main_loop_body inputYesNo st w)
  /\ (ends_nl w ->
      terminated (outFile (main_loop_body inputYesNo st w))
      /\ terminated (rejectFile (main_loop_body inputYesNo st w))).
Proof.
  intros [Ia Ir] To Tr Hw. unfold in_step.
  destruct (body_cases inputYesNo st w)
    as [[E _] | (_ & _ & [(Eo & Ea & Ef & Er) | (Ef & Er & Eo & Ea)])].
  - rewrite E. tauto.
  - rewrite Eo, Ea, Ef, Er, readlines_app, Ia, Hw by assumption.
    repeat split; try assumption. now apply terminated_app.
  - rewrite Eo, Ea, Ef, Er, readlines_app, Ir, Hw by assumption.
    repeat split; try assumption. now apply terminated_app.
Qed.

(** Over lines that come from [readlines], the loop keeps each list equal
    to the lines of its file. *)
Lemma loop_in_step (lines : list string) (st : State) :
  lines_ok lines ->
  in_step st -> terminated (outFile st) -> terminated (rejectFile st) ->
  in_step (main_loop inputYesNo st lines).
Proof.
  revert st; induction lines as [|w rest IH]; intros st Hok I To Tr; [exact I|].
  apply lines_ok_cons in Hok as [Hw Hrest].
  destruct (body_in_step st w I To Tr Hw) as [I' T'].
  destruct Hrest as [-> | [Hnl Hok]]; [exact I'|].
  destruct (T' Hnl) as [To' Tr'].
  now apply IH.
Qed.

Lemma getAcceptedWords_lines (fs : Files) :
  getAcceptedWords fs = Ok (readlines (open_a (newlist_txt fs))).
Proof. unfold getAcceptedWords. now destruct (newlist_txt fs). Qed.

Lemma getRejectWords_lines (fs : Files) :
  getRejectWords fs = Ok (readlines (open_a (rejects_txt fs))).
Proof. unfold getRejectWords. now destruct (rejects_txt fs). Qed.

(** [main] returns when the source list exists. *)
Lemma main_ok (fs : Files) (src : string) :
  oldlist_txt fs = Some src ->
  main inputYesNo fs
  = let st := main_loop inputYesNo (initial fs) (readlines src) in
    Ok (mkFiles (Some src) (Some (rejectFile st)) (Some (outFile st)), console st).
Proof.
  intros E. unfold main.
  rewrite getAcceptedWords_lines, getRejectWords_lines, E. reflexivity.
Qed.

Lemma main_missing_source (fs : Files) :
  oldlist_txt fs = None ->
  main inputYesNo fs = Raise (FileNotFoundError SOURCE_WORDLIST_NAME).
Proof.
  intros E. unfold main.
  rewrite getAcceptedWords_lines, getRejectWords_lines, E. reflexivity.
Qed.

End FilesInStep.

(** C2, amended.  When the source list exists and each of the accepted and
    rejected files, as it stood before the first run, is absent, empty or
    ends with a line break, the first run returns, and a second run on the
    directory it left (same source list, whoever answers the prompts)
    returns the same directory and shows nothing on the console: both
    output files are unchanged and no prompt is issued. *)
Theorem rerun_changes_nothing
    (first_user second_user : list Event -> string -> bool -> bool)
    (fs : Files) (src : string) :
  oldlist_txt fs = Some src ->
  history_ok (rejects_txt fs) -> history_ok (newlist_txt fs) ->
  exists (fs1 : Files) (shown1 : list Event),
    main first_user fs = Ok (fs1, shown1)
    /\ main second_user fs1 = Ok (fs1, []).
Proof.
  intros Esrc Hr Ha.
  rewrite (main_ok first_user fs src Esrc). cbv zeta.
  set (st1 := main_loop first_user (initial fs) (readlines src)).
  eexists _, _. split; [reflexivity|].
  rewrite (main_ok second_user (mkFiles (Some src) (Some (rejectFile st1)) (Some (outFile st1))) src eq_refl).
  cbv zeta.
  assert (in_step st1) as [Ia Ir].
  { apply loop_in_step.
    - apply readlines_lines_ok.
    - split; reflexivity.
    - exact Ha.
    - exact Hr. }
  unfold initial. cbn [newlist_txt rejects_txt open_a].
  rewrite Ia, Ir, loop_all_known; [reflexivity|].
  intros w Hw. cbn [alreadyAccepted alreadyRejected].
  now apply loop_decides.
Qed.

Lemma rerun_changes_nothing_witness :
  history_ok None /\ history_ok (Some (line "abcd"))
  /\ exists (fs1 : Files) (shown1 : list Event),
       main press_enter
            (mkFiles (Some (line "cats" ++ line "cat" ++ "dog")) None (Some (line "abcd")))
       = Ok (fs1, shown1)
       /\ main say_no fs1 = Ok (fs1, []).
Proof.
  assert (history_ok None) as H1 by (left; reflexivity).
  assert (history_ok (Some (line "abcd"))) as H2 by (right; exists "abcd"; reflexivity).
  split; [exact H1|]. split; [exact H2|].
  exact (rerun_changes_nothing press_enter say_no
           (mkFiles (Some (line "cats" ++ line "cat" ++ "dog")) None (Some (line "abcd")))
           (line "cats" ++ line "cat" ++ "dog") eq_refl H1 H2).
Defined.

(** C2 as it is worded fails.  A run from an empty directory over the
    source list ["abcd"] (no line break at its end) leaves the accepted
    file ["abcd"].  With the source list then set to ["efgh\n"], the first
    run appends the word and the file becomes ["abcdefgh\n"], whose only
    line is not the source word; the second run on the same source list
    appends the word again. *)
Lemma rerun_as_worded_fails :
  main press_enter (mkFiles (Some "abcd") None None)
  = Ok (mkFiles (Some "abcd") (Some "") (Some "abcd"), [])
  /\ main press_enter (mkFiles (Some (line "efgh")) (Some "") (Some "abcd"))
     = Ok (mkFiles (Some (line "efgh")) (Some "") (Some (line "abcdefgh")), [])
  /\ main press_enter (mkFiles (Some (line "efgh")) (Some "") (Some (line "abcdefgh")))
     = Ok (mkFiles (Some (line "efgh")) (Some "")
                   (Some (line "abcdefgh" ++ line "efgh")), [])
  /\ line "abcdefgh" ++ line "efgh" <> line "abcdefgh".
Proof. repeat split. discriminate. Qed.

(** C7.  With the accepted file absent [getAcceptedWords] returns the
    empty list and does not raise; with the rejected file absent
    [getRejectWords] does the same; with both absent and the source list
    present [main] returns, and [main] on a directory with absent history
    files does what it does when empty files stand in their place. *)
Theorem missing_history_recovered
    (inputYesNo : list Event -> string -> bool -> bool)
    (source rejects newlist : option string) :
  getAcceptedWords (mkFiles source rejects None) = Ok []
  /\ getRejectWords (mkFiles source None newlist) = Ok []
  /\ (forall src : string,
        exists result, main inputYesNo (mkFiles (Some src) None None) = Ok result)
  /\ main inputYesNo (mkFiles source None None)
     = main inputYesNo (mkFiles source (Some "") (Some ""))
  /\ main inputYesNo (mkFiles source rejects newlist)
     = main inputYesNo (with_empty_history (mkFiles source rejects newlist)).
Proof.
  split; [reflexivity|]. split; [reflexivity|]. split; [|split].
  - intros src. rewrite (main_ok inputYesNo (mkFiles (Some src) None None) src eq_refl).
    eexists. reflexivity.
  - destruct source; reflexivity.
  - destruct source, rejects, newlist; reflexivity.
Qed.

(** ** Further properties of the loop *)

Section Growth.

Variable inputYesNo : list Event -> string -> bool -> bool.

Lemma written_app (xs ys : list string) :
  written (xs ++ ys) = written xs ++ written ys.
Proof.
  induction xs as [|x xs IH]; [reflexivity|].
  cbn. now rewrite IH, append_assoc.
Qed.

(** One step adds at most the current word, to one list and its file. *)
Lemma body_effect (st : State) (w : string) :
  exists (newA newR : list string) (shown : list Event),
    outFile (main_loop_body inputYesNo st w) = outFile st ++ written newA
    /\ alreadyAccepted (main_loop_body inputYesNo st w)
       = (alreadyAccepted st ++ newA)%list
    /\ rejectFile (main_loop_body inputYesNo st w) = rejectFile st ++ written newR
    /\ alreadyRejected (main_loop_body inputYesNo st w)
       = (alreadyRejected st ++ newR)%list
    /\ console (main_loop_body inputYesNo st w) = (console st ++ shown)%list.
Proof.
  assert (exists shown, console (main_loop_body inputYesNo st w)
                        = (console st ++ shown)%list) as [shown Hc].
  { destruct (list_in w (alreadyAccepted st)) eqn:Ea.
    { exists []. apply list_in_spec in Ea. rewrite body_skip by tauto.
      now rewrite app_nil_r. }
    destruct (list_in w (alreadyRejected st)) eqn:Er.
    { exists []. apply list_in_spec in Er. rewrite body_skip by tauto.
      now rewrite app_nil_r. }
    assert (~ In w (alreadyAccepted st)) as Ha
      by (rewrite <- list_in_spec; congruence).
    assert (~ In w (alreadyRejected st)) as Hr
      by (rewrite <- list_in_spec; congruence).
    destruct (Nat.lt_ge_cases 3 (String.length (removesuffix (strip w) "'s")))
      as [Hlong | Hshort].
    - exists []. rewrite body_auto by assumption. cbn. now rewrite app_nil_r.
    - destruct (body_prompt inputYesNo st w Ha Hr Hshort)
        as (shown & answer & _ & _ & Hc & _).
      eexists. exact Hc. }
  destruct (body_cases inputYesNo st w)
    as [[E _] | (_ & _ & [(Eo & Ea & Ef & Er) | (Ef & Er & Eo & Ea)])].
  - exists [], [], shown. rewrite E in *. cbn.
    rewrite !append_nil_r, !app_nil_r. repeat split. exact Hc.
  - exists [w], [], shown. cbn. rewrite !append_nil_r, app_nil_r. now repeat split.
  - exists [], [w], shown. cbn. rewrite !append_nil_r, app_nil_r. now repeat split.
Qed.

Lemma loop_effect (source : list string) (st : State) :
  exists (newA newR : list string) (shown : list Event),
    outFile (main_loop inputYesNo st source) = outFile st ++ written newA
    /\ alreadyAccepted (main_loop inputYesNo st source)
       = (alreadyAccepted st ++ newA)%list
    /\ rejectFile (main_loop inputYesNo st source) = rejectFile st ++ written newR
    /\ alreadyRejected (main_loop inputYesNo st source)
       = (alreadyRejected st ++ newR)%list
    /\ console (main_loop inputYesNo st source) = (console st ++ shown)%list.
Proof.
  revert st; induction source as [|w source IH]; intros st.
  - exists [], [], []. cbn. now rewrite !append_nil_r, !app_nil_r.
  - destruct (body_effect st w) as (a1 & r1 & s1 & Ho1 & Ha1 & Hf1 & Hr1 & Hc1).
    destruct (IH (main_loop_body inputYesNo st w))
      as (a2 & r2 & s2 & Ho2 & Ha2 & Hf2 & Hr2 & Hc2).
    exists (a1 ++ a2)%list, (r1 ++ r2)%list, (s1 ++ s2)%list.
    change (main_loop inputYesNo st (w :: source))
      with (main_loop inputYesNo (main_loop_body inputYesNo st w) source).
    rewrite Ho2, Ha2, Hf2, Hr2, Hc2, Ho1, Ha1, Hf1, Hr1, Hc1.
    rewrite !written_app, !append_assoc, <- !app_assoc. now repeat split.
Qed.

Lemma loop_decided_iff (source : list string) (st : State) (w : string) :
  In w (alreadyAccepted (main_loop inputYesNo st source))
  \/ In w (alreadyRejected (main_loop inputYesNo st source))
  <-> (In w (alreadyAccepted st) \/ In w (alreadyRejected st)) \/ In w source.
Proof.
  revert st; induction source as [|x source IH]; intros st.
  - cbn. tauto.
  - change (main_loop inputYesNo st (x :: source))
      with (main_loop inputYesNo (main_loop_body inputYesNo st x) source).
    rewrite IH. cbn [In].
    destruct (body_cases inputYesNo st x)
      as [[E K] | (_ & _ & [(_ & Ea & _ & Er) | (_ & Er & _ & Ea)])].
    + rewrite E. split; [tauto|].
      intros [H | [<- | H]]; tauto.
    + rewrite Ea, Er, in_app_iff. cbn [In]. tauto.
    + rewrite Ea, Er, in_app_iff. cbn [In]. tauto.
Qed.

Lemma body_nodup (st : State) (w : string) :
  NoDup (alreadyAccepted st ++ alreadyRejected st) ->
  NoDup (alreadyAccepted (main_loop_body inputYesNo st w)
         ++ alreadyRejected (main_loop_body inputYesNo st w)).
Proof.
  intros N.
  destruct (body_cases inputYesNo st w)
    as [[E _] | (Ha & Hr & [(_ & Ea & _ & Er) | (_ & Er & _ & Ea)])].
  - now rewrite E.
  - rewrite Ea, Er, <- app_assoc. cbn [app].
    apply (NoDup_Add (Add_app w (alreadyAccepted st) (alreadyRejected st))).
    split; [exact N|]. rewrite in_app_iff. tauto.
  - rewrite Ea, Er, app_assoc.
    pose proof (Add_app w (alreadyAccepted st ++ alreadyRejected st) []) as A.
    rewrite app_nil_r in A. apply (NoDup_Add A).
    split; [exact N|]. rewrite in_app_iff. tauto.
Qed.

End Growth.

(** X1.  Over a whole run the accepted list and the output file grow by the
    same words in the same order, so do the rejected list and the reject
    file, and the console only gains events: nothing that was there is
    removed or rewritten.  Every word added is a source word that was in
    neither list at the start. *)
Theorem lists_and_files_in_lockstep
    (inputYesNo : list Event -> string -> bool -> bool)
    (st : State) (source : list string) :
  exists (newA newR : list string) (shown : list Event),
    outFile (main_loop inputYesNo st source) = outFile st ++ written newA
    /\ alreadyAccepted (main_loop inputYesNo st source)
       = (alreadyAccepted st ++ newA)%list
    /\ rejectFile (main_loop inputYesNo st source) = rejectFile st ++ written newR
    /\ alreadyRejected (main_loop inputYesNo st source)
       = (alreadyRejected st ++ newR)%list
    /\ console (main_loop inputYesNo st source) = (console st ++ shown)%list
    /\ (forall w, In w (newA ++ newR)%list ->
                  In w source
                  /\ ~ In w (alreadyAccepted st) /\ ~ In w (alreadyRejected st)).
Proof.
  revert st; induction source as [|x source IH]; intros st.
  - exists [], [], []. cbn. rewrite !append_nil_r, !app_nil_r.
    repeat split; try reflexivity; destruct H.
  - destruct (IH (main_loop_body inputYesNo st x))
      as (a2 & r2 & s2 & Ho2 & Ha2 & Hf2 & Hr2 & Hc2 & Hn2).
    destruct (body_effect inputYesNo st x) as (a0 & r0 & s1 & _ & _ & _ & _ & Hc1).
    change (main_loop inputYesNo st (x :: source))
      with (main_loop inputYesNo (main_loop_body inputYesNo st x) source).
    rewrite Ho2, Ha2, Hf2, Hr2, Hc2, Hc1. clear a0 r0 Hc1 Ho2 Ha2 Hf2 Hr2 Hc2.
    destruct (body_cases inputYesNo st x)
      as [[E _] | (Hxa & Hxr & [(Eo & Ea & Ef & Er) | (Ef & Er & Eo & Ea)])].
    + exists a2, r2, (s1 ++ s2)%list. rewrite E in *.
      rewrite <- app_assoc. repeat split; try reflexivity;
        destruct (Hn2 w H) as (? & ? & ?); try assumption. now right.
    + exists (x :: a2), r2, (s1 ++ s2)%list.
      rewrite Eo, Ea, Ef, Er, <- !app_assoc, append_assoc in *.
      repeat split; try reflexivity;
        destruct H as [<- | H]; try assumption; try (now left);
        destruct (Hn2 w H) as (? & Ka & Kr); try assumption; try (now right).
      intros K. apply Ka. apply in_or_app. now left.
    + exists a2, (x :: r2), (s1 ++ s2)%list.
      rewrite Eo, Ea, Ef, Er, <- !app_assoc, append_assoc in *.
      assert (forall w, In w (a2 ++ x :: r2)%list -> w = x \/ In w (a2 ++ r2)%list) as Hsplit.
      { intros w H. apply in_app_or in H as [H | [H | H]]; [right | now left | right];
          apply in_or_app; tauto. }
      repeat split; try reflexivity;
        destruct (Hsplit w H) as [-> | H']; try assumption; try (now left);
        destruct (Hn2 w H') as (? & Ka & Kr); try assumption; try (now right).
      intros K. apply Kr. apply in_or_app. now left.
Qed.

(** X2.  A run that returns leaves the source file as it was and only adds
    text at the end of the two history files: the words it accepted to
    [newlist.txt], the words it rejected to [rejects.txt]. *)
Theorem main_only_appends
    (inputYesNo : list Event -> string -> bool -> bool)
    (fs fs1 : Files) (shown : list Event) :
  main inputYesNo fs = Ok (fs1, shown) ->
  oldlist_txt fs1 = oldlist_txt fs
  /\ exists newA newR : list string,
       newlist_txt fs1 = Some (open_a (newlist_txt fs) ++ written newA)
       /\ rejects_txt fs1 = Some (open_a (rejects_txt fs) ++ written newR).
Proof.
  intros Hmain. destruct (oldlist_txt fs) as [src|] eqn:Esrc.
  - rewrite (main_ok inputYesNo fs src Esrc) in Hmain. cbv zeta in Hmain.
    injection Hmain as <- <-.
    split; [reflexivity|].
    destruct (loop_effect inputYesNo (readlines src) (initial fs))
      as (newA & newR & s & Ho & _ & Hf & _ & _).
    exists newA, newR. rewrite Ho, Hf. now split.
  - rewrite (main_missing_source inputYesNo fs Esrc) in Hmain. discriminate Hmain.
Qed.

Lemma main_only_appends_witness :
  exists newA newR : list string,
    Some (line "abcd" ++ line "cats" ++ line "cat") = Some (line "abcd" ++ written newA)
    /\ Some (line "dog") = Some ("" ++ written newR).
Proof.
  apply (main_only_appends
           (fun _ message _ => String.eqb message (accept_message (line "cat")))
           (mkFiles (Some (line "cats" ++ line "cat" ++ line "dog")) None (Some (line "abcd")))
           (mkFiles (Some (line "cats" ++ line "cat" ++ line "dog"))
                    (Some (line "dog")) (Some (line "abcd" ++ line "cats" ++ line "cat")))
           [PrintRelatedAccepted ["cats"];
            AskYesNo (accept_message (line "cat")) true true;
            AskYesNo (accept_message (line "dog")) true false]).
  reflexivity.
Defined.

(** X3.  After a run a word is decided (in one of the two lists) exactly
    when it was decided before or is a word of the source list: the run
    decides every source word and nothing else. *)
Theorem decided_after_run
    (inputYesNo : list Event -> string -> bool -> bool)
    (st : State) (source : list string) (w : string) :
  In w (alreadyAccepted (main_loop inputYesNo st source))
  \/ In w (alreadyRejected (main_loop inputYesNo st source))
  <-> (In w (alreadyAccepted st) \/ In w (alreadyRejected st)) \/ In w source.
Proof.
  split.
  - intros H. now apply loop_decided_iff in H.
  - intros [H | H].
    + now apply loop_keeps_decided.
    + now apply loop_decides.
Qed.

(** X4.  If no word occurs twice in the two lists taken together before a
    run, none does after it: a word is written at most once, whatever the
    source list repeats. *)
Theorem run_adds_no_duplicate
    (inputYesNo : list Event -> string -> bool -> bool)
    (source : list string) (st : State) :
  NoDup (alreadyAccepted st ++ alreadyRejected st) ->
  NoDup (alreadyAccepted (main_loop inputYesNo st source)
         ++ alreadyRejected (main_loop inputYesNo st source)).
Proof.
  revert st; induction source as [|w source IH]; intros st N; [exact N|].
  change (main_loop inputYesNo st (w :: source))
    with (main_loop inputYesNo (main_loop_body inputYesNo st w) source).
  apply IH. now apply body_nodup.
Qed.

Lemma run_adds_no_duplicate_witness :
  NoDup (alreadyAccepted
           (main_loop say_no fresh [line "cats"; line "cat"; line "cats"; line "cat"])
         ++ alreadyRejected
              (main_loop say_no fresh [line "cats"; line "cat"; line "cats"; line "cat"])).
Proof.
  apply (run_adds_no_duplicate say_no
           [line "cats"; line "cat"; line "cats"; line "cat"] fresh).
  constructor.
Defined.

(** X5.  When every source word is long enough to be accepted without
    asking, the run shows nothing on the console and leaves the reject
    file and the rejected list as they were. *)
Theorem long_words_never_prompt
    (inputYesNo : list Event -> string -> bool -> bool)
    (source : list string) (st : State) :
  (forall w, In w source -> 3 < String.length (removesuffix (strip w) "'s")) ->
  console (main_loop inputYesNo st source) = console st
  /\ rejectFile (main_loop inputYesNo st source) = rejectFile st
  /\ alreadyRejected (main_loop inputYesNo st source) = alreadyRejected st.
Proof.
  revert st; induction source as [|w source IH]; intros st Hlong; [now repeat split|].
  change (main_loop inputYesNo st (w :: source))
    with (main_loop inputYesNo (main_loop_body inputYesNo st w) source).
  destruct (IH (main_loop_body inputYesNo st w)) as (Hc & Hf & Hr).
  { intros x Hx. apply Hlong. now right. }
  rewrite Hc, Hf, Hr. clear Hc Hf Hr IH.
  destruct (list_in w (alreadyAccepted st)) eqn:Ea.
  { apply list_in_spec in Ea. rewrite body_skip by tauto. now repeat split. }
  destruct (list_in w (alreadyRejected st)) eqn:Er.
  { apply list_in_spec in Er. rewrite body_skip by tauto. now repeat split. }
  rewrite body_auto.
  - now repeat split.
  - rewrite <- list_in_spec. congruence.
  - rewrite <- list_in_spec. congruence.
  - apply Hlong. now left.
Qed.

Lemma long_words_never_prompt_witness :
  console (main_loop say_no fresh [line "cats"; line "horse's"]) = console fresh
  /\ rejectFile (main_loop say_no fresh [line "cats"; line "horse's"]) = rejectFile fresh
  /\ alreadyRejected (main_loop say_no fresh [line "cats"; line "horse's"])
     = alreadyRejected fresh.
Proof.
  apply (long_words_never_prompt say_no [line "cats"; line "horse's"] fresh).
  intros w [<- | [<- | []]]; vm_compute; lia.
Defined.

(** With a user who always says yes the reject side is never touched. *)
Lemma always_yes_reject_free
    (inputYesNo : list Event -> string -> bool -> bool)
    (source : list string) (st : State) :
  (forall shown message, inputYesNo shown message true = true) ->
  rejectFile (main_loop inputYesNo st source) = rejectFile st
  /\ alreadyRejected (main_loop inputYesNo st source) = alreadyRejected st.
Proof.
  intros Hyes. revert st; induction source as [|w source IH]; intros st; [now split|].
  change (main_loop inputYesNo st (w :: source))
    with (main_loop inputYesNo (main_loop_body inputYesNo st w) source).
  destruct (IH (main_loop_body inputYesNo st w)) as (Hf & Hr).
  rewrite Hf, Hr. clear Hf Hr IH.
  destruct (body_cases inputYesNo st w)
    as [[E _] | (Ha & Hr & [(_ & _ & Ef & Er) | Hrej])].
  - now rewrite E.
  - now split.
  - exfalso.
    destruct (Nat.lt_ge_cases 3 (String.length (removesuffix (strip w) "'s")))
      as [Hlong | Hshort].
    + apply (accepted_not_rejected st (main_loop_body inputYesNo st w) w);
        [|exact Hrej].
      rewrite body_auto by assumption. now repeat split.
    + destruct (body_prompt inputYesNo st w Ha Hr Hshort)
        as (shown & answer & _ & Hans & _ & Hstep).
      rewrite Hyes in Hans. subst answer.
      now apply (accepted_not_rejected st (main_loop_body inputYesNo st w) w).
Qed.

(** X6.  With a user who answers yes to every prompt (pressing enter
    included) nothing is ever rejected: the reject file and the rejected
    list end as they started. *)
Theorem always_yes_rejects_nothing
    (inputYesNo : list Event -> string -> bool -> bool)
    (source : list string) (st : State) :
  (forall shown message, inputYesNo shown message true = true) ->
  rejectFile (main_loop inputYesNo st source) = rejectFile st
  /\ alreadyRejected (main_loop inputYesNo st source) = alreadyRejected st.
Proof.
  intros Hyes.
  destruct (always_yes_reject_free inputYesNo source st Hyes) as [Hf Hr].
  split; [exact Hf | exact Hr].
Qed.

Lemma always_yes_rejects_nothing_witness :
  rejectFile (main_loop press_enter fresh [line "cat"; line "dog"; line "cats"]) = ""
  /\ alreadyRejected (main_loop press_enter fresh [line "cat"; line "dog"; line "cats"]) = [].
Proof.
  apply (always_yes_rejects_nothing press_enter [line "cat"; line "dog"; line "cats"] fresh).
  reflexivity.
Defined.

(** X7.  With a user who answers no to every prompt the only words the run
    accepts are the ones long enough to be accepted without asking. *)
Theorem always_no_accepts_only_long
    (inputYesNo : list Event -> string -> bool -> bool)
    (source : list string) (st : State) (w : string) :
  (forall shown message, inputYesNo shown message true = false) ->
  In w (alreadyAccepted (main_loop inputYesNo st source)) ->
  In w (alreadyAccepted st)
  \/ (In w source /\ 3 < String.length (removesuffix (strip w) "'s")).
Proof.
  intros Hno. revert st; induction source as [|x source IH]; intros st Hin; [now left|].
  change (main_loop inputYesNo st (x :: source))
    with (main_loop inputYesNo (main_loop_body inputYesNo st x) source) in Hin.
  apply IH in Hin as [Hin | [Hin Hlong]]; [|right; split; [now right | exact Hlong]].
  destruct (body_cases inputYesNo st x)
    as [[E _] | (Ha & Hr & [Hacc | (_ & _ & _ & Ea)])].
  - rewrite E in Hin. now left.
  - destruct Hacc as (_ & Ea & _). rewrite Ea in Hin.
    apply in_app_or in Hin as [Hin | [<- | []]]; [now left|].
    right. split; [now left|].
    destruct (Nat.lt_ge_cases 3 (String.length (removesuffix (strip x) "'s")))
      as [Hlong | Hshort]; [exact Hlong | exfalso].
    destruct (body_prompt inputYesNo st x Ha Hr Hshort)
      as (shown & answer & _ & Hans & _ & Hstep).
    rewrite Hno in Hans. subst answer.
    apply (accepted_not_rejected st (main_loop_body inputYesNo st x) x); [|exact Hstep].
    destruct Hstep as (Hf & Hk & Ho & Hl).
    rewrite Hl in Ea. symmetry in Ea. now apply list_snoc_neq in Ea.
  - rewrite Ea in Hin. now left.
Qed.

Lemma always_no_accepts_only_long_witness :
  In (line "cats") (alreadyAccepted fresh)
  \/ (In (line "cats") [line "cat"; line "cats"]
      /\ 3 < String.length (removesuffix (strip (line "cats")) "'s")).
Proof.
  apply (always_no_accepts_only_long say_no [line "cat"; line "cats"] fresh (line "cats")).
  - reflexivity.
  - vm_compute. left. reflexivity.
Defined.

(** ** What a run shows and when it asks *)

Section Console.

Variable inputYesNo : list Event -> string -> bool -> bool.

Lemma length_pos_not_nil (l : list string) : (0 <? List.length l) = true -> l <> [].
Proof. intros H ->. discriminate H. Qed.

Lemma body_events (st : State) (w : string) (ev : Event) :
  In ev (console (main_loop_body inputYesNo st w)) ->
  In ev (console st) \/ event_of_run [w] ev.
Proof.
  unfold main_loop_body.
  destruct (not_in w (alreadyAccepted st) && not_in w (alreadyRejected st));
    [|now left].
  destruct (3 <? String.length (removesuffix (strip w) "'s")) eqn:Elen;
    [now left|].
  apply Nat.ltb_ge in Elen.
  set (ra := findRelatedWords w (alreadyAccepted st)).
  set (rr := findRelatedWords w (alreadyRejected st)).
  assert (event_of_run [w]
            (AskYesNo (accept_message w) true
               (inputYesNo
                  (console
                     (if 0 <? List.length rr
                      then show (if 0 <? List.length ra
                                 then show st (PrintRelatedAccepted ra) else st)
                                (PrintRelatedRejected rr)
                      else if 0 <? List.length ra
                           then show st (PrintRelatedAccepted ra) else st))
                  (accept_message w) true))) as Hask.
  { split; [reflexivity|]. exists w. split; [now left | now split]. }
  destruct (0 <? List.length ra) eqn:Ea, (0 <? List.length rr) eqn:Er;
    cbv zeta; cbn [show console] in *;
    match goal with |- context [if ?b then _ else _] => destruct b end;
    cbn; rewrite ?in_app_iff; cbn;
    intros H; decompose [or] H; subst; try tauto;
    right; first [ exact Hask
                 | now apply length_pos_not_nil
                 | idtac ].
Qed.

Lemma event_of_run_head (w : string) (source : list string) (ev : Event) :
  event_of_run [w] ev -> event_of_run (w :: source) ev.
Proof.
  destruct ev; cbn; try tauto.
  intros [D (x & [<- | []] & M & L)]. split; [exact D|].
  exists w. split; [now left | now split].
Qed.

Lemma event_of_run_tail (w : string) (source : list string) (ev : Event) :
  event_of_run source ev -> event_of_run (w :: source) ev.
Proof.
  destruct ev; cbn; try tauto.
  intros [D (x & Hx & M & L)]. split; [exact D|].
  exists x. split; [now right | now split].
Qed.

End Console.

(** X8.  Every event a run adds to the console is an advisory print of a
    list that is not empty, or a prompt with default yes whose message is
    [accept "<word>"?] for a source word too short to be accepted without
    asking. *)
Theorem run_events
    (inputYesNo : list Event -> string -> bool -> bool)
    (source : list string) (st : State) (ev : Event) :
  In ev (console (main_loop inputYesNo st source)) ->
  In ev (console st) \/ event_of_run source ev.
Proof.
  revert st; induction source as [|w source IH]; intros st H; [now left|].
  change (main_loop inputYesNo st (w :: source))
    with (main_loop inputYesNo (main_loop_body inputYesNo st w) source) in H.
  apply IH in H as [H | H].
  - apply body_events in H as [H | H]; [now left | right].
    now apply event_of_run_head.
  - right. now apply event_of_run_tail.
Qed.

Lemma run_events_witness :
  In (PrintRelatedAccepted ["cats"]) (console fresh)
  \/ event_of_run [line "cats"; line "cat"] (PrintRelatedAccepted ["cats"]).
Proof.
  apply (run_events say_no [line "cats"; line "cat"] fresh (PrintRelatedAccepted ["cats"])).
  vm_compute. left. reflexivity.
Defined.

(** X9.  A blank source line (white space only) that is in neither list is
    not dropped: the program asks about it, with the message
    [accept ""?]. *)
Theorem blank_line_is_prompted
    (inputYesNo : list Event -> string -> bool -> bool)
    (st : State) (w : string) :
  blank w = true ->
  ~ In w (alreadyAccepted st) -> ~ In w (alreadyRejected st) ->
  exists (shown : list Event) (answer : bool),
    console (main_loop_body inputYesNo st w)
    = (console st ++ shown ++ [AskYesNo ("accept " ++ dquote ++ dquote ++ "?") true answer])%list.
Proof.
  intros Hb Ha Hr. apply strip_empty_iff in Hb.
  assert (String.length (removesuffix (strip w) "'s") <= 3) as Hshort
    by (rewrite Hb; cbn; lia).
  destruct (body_prompt inputYesNo st w Ha Hr Hshort)
    as (shown & answer & _ & _ & Hc & _).
  exists shown, answer. rewrite Hc. unfold accept_message. now rewrite Hb.
Qed.

Lemma blank_line_is_prompted_witness :
  exists (shown : list Event) (answer : bool),
    console (main_loop_body say_no fresh nl)
    = (console fresh ++ shown ++ [AskYesNo ("accept " ++ dquote ++ dquote ++ "?") true answer])%list.
Proof.
  apply (blank_line_is_prompted say_no fresh nl).
  - reflexivity.
  - intros [].
  - intros [].
Defined.

(** X10.  For a possessive, a word whose stripped form is [base ++ "'s"],
    the length that counts is the length of [base]: the word is accepted
    without asking when [base] is longer than 3, and it is prompted
    otherwise, however long the word with its suffix is. *)
Theorem possessive_counts_without_suffix
    (inputYesNo : list Event -> string -> bool -> bool)
    (st : State) (w base : string) :
  strip w = base ++ "'s" ->
  ~ In w (alreadyAccepted st) -> ~ In w (alreadyRejected st) ->
  (3 < String.length base ->
   main_loop_body inputYesNo st w
   = mkState (outFile st ++ w) (rejectFile st)
             (alreadyAccepted st ++ [w])%list (alreadyRejected st) (console st))
  /\ (String.length base <= 3 ->
      exists (shown : list Event) (answer : bool),
        console (main_loop_body inputYesNo st w)
        = (console st ++ shown ++ [AskYesNo (accept_message w) true answer])%list).
Proof.
  intros Es Ha Hr.
  assert (removesuffix (strip w) "'s" = base) as Eb
    by (apply removesuffix_spec; exact Es).
  split; intros Hlen.
  - rewrite body_auto; [reflexivity | assumption | assumption |].
    now rewrite Eb.
  - assert (String.length (removesuffix (strip w) "'s") <= 3) as Hshort
      by now rewrite Eb.
    destruct (body_prompt inputYesNo st w Ha Hr Hshort)
      as (shown & answer & _ & _ & Hc & _).
    now exists shown, answer.
Qed.

Lemma possessive_counts_without_suffix_witness :
  strip (line "dog's") = "dog" ++ "'s"
  /\ exists (shown : list Event) (answer : bool),
       console (main_loop_body say_no fresh (line "dog's"))
       = (console fresh ++ shown
            ++ [AskYesNo (accept_message (line "dog's")) true answer])%list.
Proof.
  split; [reflexivity|].
  apply (possessive_counts_without_suffix say_no fresh (line "dog's") "dog").
  - reflexivity.
  - intros [].
  - intros [].
  - vm_compute. lia.
Defined.


(** X12.  When the history files are absent, empty or end with a line
    break, the lists a later run loads from the files the run left are the
    lists the run held in memory when it ended: every decision is found
    again. *)
Theorem decisions_survive_reload
    (inputYesNo : list Event -> string -> bool -> bool)
    (fs : Files) (src : string) :
  oldlist_txt fs = Some src ->
  history_ok (rejects_txt fs) -> history_ok (newlist_txt fs) ->
  let final := main_loop inputYesNo (initial fs) (readlines src) in
  exists (fs1 : Files) (shown : list Event),
    main inputYesNo fs = Ok (fs1, shown)
    /\ getAcceptedWords fs1 = Ok (alreadyAccepted final)
    /\ getRejectWords fs1 = Ok (alreadyRejected final).
Proof.
  intros Esrc Hr Ha final.
  rewrite (main_ok inputYesNo fs src Esrc). cbv zeta. fold final.
  eexists _, _. split; [reflexivity|].
  assert (in_step final) as [Ia Ir].
  { apply loop_in_step.
    - apply readlines_lines_ok.
    - split; reflexivity.
    - exact Ha.
    - exact Hr. }
  rewrite getAcceptedWords_lines, getRejectWords_lines.
  cbn [newlist_txt rejects_txt open_a]. now rewrite Ia, Ir.
Qed.

Lemma decisions_survive_reload_witness :
  exists (fs1 : Files) (shown : list Event),
    main say_no (mkFiles (Some (line "cats" ++ "cat")) None (Some (line "abcd")))
    = Ok (fs1, shown)
    /\ getAcceptedWords fs1 = Ok [line "abcd"; line "cats"]
    /\ getRejectWords fs1 = Ok ["cat"].
Proof.
  apply (decisions_survive_reload say_no
           (mkFiles (Some (line "cats" ++ "cat")) None (Some (line "abcd")))
           (line "cats" ++ "cat")).
  - reflexivity.
  - left. reflexivity.
  - right. exists "abcd". reflexivity.
Defined.

(** ** More on strings: stripping and lowering commute and are idempotent *)

Lemma lstrip_fixed (x : string) : not_space (first_char x) -> lstrip x = x.
Proof. destruct x as [|c x]; [reflexivity|]. cbn. now intros ->. Qed.

Lemma rstrip_fixed (x : string) : not_space (last_char x) -> rstrip x = x.
Proof.
  induction x as [|c x IH]; [reflexivity|].
  rewrite rstrip_cons. destruct x as [|d x].
  - cbn. now intros ->.
  - intros H. change (last_char (String c (String d x))) with (last_char (String d x)) in H.
    now rewrite (IH H).
Qed.

Lemma strip_idem (s : string) : strip (strip s) = strip s.
Proof.
  destruct (strip_spec s) as (_ & _ & _ & _ & _ & F & L).
  unfold strip at 1. rewrite (lstrip_fixed _ F). now apply rstrip_fixed.
Qed.

Lemma isspace_lower_char (c : ascii) : isspace (lower_char c) = isspace c.
Proof. destruct c as [[] [] [] [] [] [] [] []]; reflexivity. Qed.

Lemma lower_char_idem (c : ascii) : lower_char (lower_char c) = lower_char c.
Proof. destruct c as [[] [] [] [] [] [] [] []]; reflexivity. Qed.

Lemma lower_idem (s : string) : lower (lower s) = lower s.
Proof.
  induction s as [|c s IH]; [reflexivity|].
  cbn. now rewrite lower_char_idem, IH.
Qed.


Lemma lstrip_lower (s : string) : lstrip (lower s) = lower (lstrip s).
Proof.
  induction s as [|c s IH]; [reflexivity|].
  cbn. rewrite isspace_lower_char. now destruct (isspace c).
Qed.

Lemma rstrip_lower (s : string) : rstrip (lower s) = lower (rstrip s).
Proof.
  induction s as [|c s IH]; [reflexivity|].
  cbn [lower]. rewrite !rstrip_cons, IH, isspace_lower_char.
  destruct (rstrip s); cbn; [now destruct (isspace c) | reflexivity].
Qed.

Lemma strip_lower (s : string) : strip (lower s) = lower (strip s).
Proof. unfold strip. now rewrite lstrip_lower, rstrip_lower. Qed.

Lemma str_in_refl (a : string) : str_in a a = true.
Proof. apply str_in_spec. exists "", "". cbn. now rewrite append_nil_r. Qed.

(** X13.  [findRelatedWords] works entry by entry: on two word lists put
    end to end it returns the two results put end to end. *)
Theorem findRelatedWords_app (target : string) (l1 l2 : list string) :
  findRelatedWords target (l1 ++ l2)
  = (findRelatedWords target l1 ++ findRelatedWords target l2)%list.
Proof.
  rewrite !findRelatedWords_filter.
  now rewrite filter_app, map_app.
Qed.

(** X14.  Every word [findRelatedWords] returns is the stripped form of an
    entry of the word list, is longer than 2 characters, and carries no
    white space at either end. *)
Theorem findRelatedWords_results (target x : string) (wordlist : list string) :
  In x (findRelatedWords target wordlist) ->
  (exists entry, In entry wordlist /\ x = strip entry)
  /\ 2 < String.length x
  /\ strip x = x.
Proof.
  rewrite findRelatedWords_filter, in_map_iff.
  intros (entry & <- & H). apply filter_In in H as [Hin K].
  apply keeps_spec in K as [Hlen _].
  split; [now exists entry|]. split; [exact Hlen | apply strip_idem].
Qed.

Lemma findRelatedWords_results_witness :
  (exists entry, In entry [line " Cats "; line "at"] /\ "Cats" = strip entry)
  /\ 2 < String.length "Cats"
  /\ strip "Cats" = "Cats".
Proof.
  apply (findRelatedWords_results (line "cat") "Cats" [line " Cats "; line "at"]).
  vm_compute. left. reflexivity.
Defined.

(** X15.  The result does not depend on the case of the target nor on the
    white space around it. *)
Theorem findRelatedWords_target_normalised (target : string) (wordlist : list string) :
  findRelatedWords (strip target) wordlist = findRelatedWords target wordlist
  /\ findRelatedWords (lower target) wordlist = findRelatedWords target wordlist.
Proof.
  rewrite !findRelatedWords_filter. split; f_equal; apply filter_ext; intros e;
    unfold keeps.
  - now rewrite strip_idem.
  - now rewrite strip_lower, lower_idem.
Qed.


(** X17.  Relatedness is symmetric between words longer than 2: if [b] is
    reported for the target [a], and [a] stripped is longer than 2
    characters, then [a] is reported for the target [b]. *)
Theorem relatedness_symmetric (a b : string) :
  findRelatedWords a [b] = [strip b] ->
  2 < String.length (strip a) ->
  findRelatedWords b [a] = [strip a].
Proof.
  rewrite !findRelatedWords_one. intros H Hlen.
  destruct (keeps a b) eqn:K; [|discriminate H].
  assert (keeps b a = true) as ->; [|reflexivity].
  apply keeps_spec. apply keeps_spec in K as [_ Hsub].
  split; [exact Hlen | tauto].
Qed.

Lemma relatedness_symmetric_witness :
  findRelatedWords (line "cats") [line "Cat"] = [strip (line "Cat")]
  /\ findRelatedWords (line "Cat") [line "cats"] = [strip (line "cats")].
Proof.
  split; [reflexivity|].
  apply (relatedness_symmetric (line "cats") (line "Cat")).
  - reflexivity.
  - vm_compute. lia.
Defined.

(** X18.  An entry that equals the target up to case and surrounding white
    space, and is longer than 2 characters once stripped, is always
    reported. *)
Theorem same_word_is_reported (target entry : string) (wordlist : list string) :
  In entry wordlist ->
  lower (strip entry) = lower (strip target) ->
  2 < String.length (strip entry) ->
  In (strip entry) (findRelatedWords target wordlist).
Proof.
  intros Hin Heq Hlen. rewrite findRelatedWords_filter.
  apply in_map, filter_In. split; [exact Hin|].
  unfold keeps. rewrite Heq, str_in_refl. apply Nat.ltb_lt in Hlen.
  now rewrite Hlen.
Qed.

Lemma same_word_is_reported_witness :
  In (strip (line "CAT")) (findRelatedWords " cat" [line "dogs"; line "CAT"]).
Proof.
  apply (same_word_is_reported " cat" (line "CAT") [line "dogs"; line "CAT"]).
  - right. left. reflexivity.
  - reflexivity.
  - vm_compute. lia.
Defined.

(** ** More on [readlines] *)

Lemma written_splitlines (text : string) : written (splitlines_keepends text) = text.
Proof.
  induction text as [|c rest IH]; [reflexivity|].
  cbn [splitlines_keepends]. destruct (Ascii.eqb c LF).
  - cbn. now rewrite IH.
  - destruct (splitlines_keepends rest) as [|l ls] eqn:E.
    + apply splitlines_nil in E. now subst rest.
    + cbn in *. now rewrite IH.
Qed.

Lemma splitlines_shape (text : string) :
  no_cr text = true ->
  forall (pre : list string) (w : string) (post : list string),
    splitlines_keepends text = (pre ++ w :: post)%list ->
    exists body,
      no_break body = true
      /\ (w = body ++ nl \/ (w = body /\ body <> "" /\ post = [])).
Proof.
  induction text as [|c rest IH]; intros Hcr pre w post E.
  - destruct pre; discriminate E.
  - cbn [no_cr] in Hcr. apply andb_true_iff in Hcr as [Hc Hrest].
    specialize (IH Hrest). cbn [splitlines_keepends] in E.
    destruct (Ascii.eqb c LF) eqn:El.
    + apply Ascii.eqb_eq in El. subst c. destruct pre as [|x pre].
      * injection E as <- _. exists "". split; [reflexivity | now left].
      * injection E as _ E. exact (IH pre w post E).
    + destruct (splitlines_keepends rest) as [|l ls].
      * destruct pre as [|x pre]; [|destruct pre; discriminate E].
        injection E as <- <-. exists (String c "").
        split; [cbn; now rewrite El, Hc | right]. now repeat split.
      * destruct pre as [|x pre].
        -- injection E as <- <-.
           destruct (IH [] l ls eq_refl) as (body & Hb & Hw).
           exists (String c body). split; [cbn; now rewrite El, Hc, Hb|].
           destruct Hw as [-> | (-> & _ & ->)]; [now left | right].
           now repeat split.
        -- injection E as _ E. apply (IH (l :: pre) w post). now rewrite E.
Qed.

(** X19.  Reading the lines of a file loses nothing but the spelling of
    the line breaks: the lines written one after the other are the text
    with its line breaks translated, and reading that text again gives the
    same lines. *)
Theorem readlines_round_trip (raw : string) :
  written (readlines raw) = universal_newlines raw
  /\ readlines (written (readlines raw)) = readlines raw.
Proof.
  assert (written (readlines raw) = universal_newlines raw) as E
    by apply written_splitlines.
  split; [exact E|].
  rewrite E. unfold readlines.
  now rewrite (universal_newlines_id _ (universal_newlines_no_cr raw)).
Qed.

(** X20.  Every line [readlines] returns is a text without line break
    characters followed by one ["\n"]; only the last line may lack the
    ["\n"], and then it is not empty.  So no line is empty, and none holds
    a carriage return. *)
Theorem readlines_shape (raw : string) (pre : list string) (w : string)
    (post : list string) :
  readlines raw = (pre ++ w :: post)%list ->
  exists body,
    no_break body = true
    /\ (w = body ++ nl \/ (w = body /\ body <> "" /\ post = [])).
Proof.
  apply splitlines_shape, universal_newlines_no_cr.
Qed.

Lemma readlines_shape_witness :
  exists body,
    no_break body = true
    /\ ("cd" = body ++ nl \/ ("cd" = body /\ body <> "" /\ @nil string = [])).
Proof.
  apply (readlines_shape ("ab" ++ String CR nl ++ "cd") ["ab" ++ nl] "cd" []).
  reflexivity.
Defined.

(** ** Paths *)

Example neighborFilepath_ex :
  neighborFilepath "/home/user/anagrambot/refine_wordlist.py" NEW_WORDS_NAME
  = "/home/user/anagrambot/newlist.txt"
  /\ neighborFilepath "refine_wordlist.py" NEW_WORDS_NAME = "newlist.txt"
  /\ neighborFilepath "/refine_wordlist.py" NEW_WORDS_NAME = "/newlist.txt"
  /\ neighborFilepath "tools//refine_wordlist.py" NEW_WORDS_NAME = "tools/newlist.txt"
  /\ PosixPath.split "//a" = ("//", "a")
  /\ PosixPath.split "a/b/" = ("a/b", "").
Proof. repeat split. Qed.

Section PathLemmas.

Import PosixPath.

Lemma rfind_no_sep (t : string) : no_sep t = true -> rfind_sep_succ t = 0.
Proof.
  induction t as [|c t IH]; [reflexivity|].
  cbn. rewrite andb_true_iff, negb_true_iff. intros [Hc Ht].
  now rewrite (IH Ht), Hc.
Qed.

Lemma rfind_app_no_sep (h t : string) :
  no_sep t = true -> rfind_sep_succ (h ++ t) = rfind_sep_succ h.
Proof.
  intros Ht. induction h as [|c h IH]; cbn.
  - now apply rfind_no_sep.
  - now rewrite IH.
Qed.

Lemma rfind_ends_sep (h : string) :
  rfind_sep_succ (h ++ "/") = String.length (h ++ "/").
Proof.
  induction h as [|c h IH]; [reflexivity|].
  cbn [append rfind_sep_succ String.length]. rewrite IH.
  destruct h; reflexivity.
Qed.

Lemma substring_whole (t : string) : substring 0 (String.length t) t = t.
Proof. induction t as [|c t IH]; cbn; [reflexivity | now rewrite IH]. Qed.

(** The two slices [split] takes, when the cut is known. *)
Lemma slices_at (h t : string) :
  substring 0 (String.length h) (h ++ t) = h
  /\ substring (String.length h) (String.length (h ++ t) - String.length h) (h ++ t) = t.
Proof.
  split; [apply substring_from_start|].
  rewrite length_append.
  replace (String.length h + String.length t - String.length h)
    with (String.length t) by lia.
  apply substring_to_end.
Qed.

(** Every path is cut after its last slash. *)
Lemma rfind_cut (p : string) :
  exists h t,
    p = h ++ t /\ rfind_sep_succ p = String.length h /\ no_sep t = true
    /\ (h = "" \/ exists h', h = h' ++ "/").
Proof.
  induction p as [|c p (h & t & E & Hi & Ht & Hh)].
  - exists "", "". now repeat split; try left.
  - cbn [rfind_sep_succ]. rewrite Hi. destruct Hh as [-> | [h' ->]].
    + cbn in E. subst t. cbn. destruct (Ascii.eqb c sep) eqn:Ec.
      * apply Ascii.eqb_eq in Ec. subst c.
        exists "/", p. repeat split; [exact Ht|]. right. now exists "".
      * exists "", (String c p). cbn. rewrite Ec, Ht. repeat split. now left.
    + exists (String c (h' ++ "/")), t. rewrite E.
      repeat split; [|exact Ht|right; now exists (String c h')].
      destruct h'; reflexivity.
Qed.

Lemma only_sep_app (a b : string) : only_sep (a ++ b) = only_sep a && only_sep b.
Proof.
  induction a as [|c a IH]; [reflexivity|].
  cbn. now rewrite IH, andb_assoc.
Qed.

Lemma only_sep_ends_sep (d : string) :
  only_sep d = true -> d <> "" -> exists d', d = d' ++ "/".
Proof.
  induction d as [|c d IH]; [congruence|].
  cbn. rewrite andb_true_iff, Ascii.eqb_eq. intros [-> Hd] _.
  destruct d as [|c' d'].
  - now exists "".
  - destruct (IH Hd) as [x Hx]; [discriminate|].
    exists (String sep x). cbn. now rewrite <- Hx.
Qed.

Lemma rstrip_sep_cons (c : ascii) (s : string) :
  rstrip_sep (String c s)
  = match rstrip_sep s with
    | "" => if Ascii.eqb c sep then "" else String c ""
    | String d r => String c (String d r)
    end.
Proof. reflexivity. Qed.

(** What [rstrip("/")] leaves ends with a character that is not a slash,
    unless only slashes were there. *)
Lemma rstrip_sep_cases (s : string) :
  (only_sep s = true /\ rstrip_sep s = "")
  \/ (only_sep s = false
      /\ exists d' c, rstrip_sep s = d' ++ String c "" /\ Ascii.eqb c sep = false).
Proof.
  induction s as [|c s [[Ho E] | [Ho (d' & c0 & E & Hc0)]]].
  - now left.
  - rewrite rstrip_sep_cons, E. cbn [only_sep]. rewrite Ho.
    destruct (Ascii.eqb c sep) eqn:Ec; [now left | right].
    split; [reflexivity|]. now exists "", c.
  - right. rewrite rstrip_sep_cons, E. cbn [only_sep]. rewrite Ho, andb_false_r.
    split; [reflexivity|]. exists (String c d'), c0.
    split; [now destruct d' | exact Hc0].
Qed.

Lemma rstrip_sep_app_sep (x : string) : rstrip_sep (x ++ "/") = rstrip_sep x.
Proof.
  induction x as [|c x IH]; [reflexivity|].
  cbn [append]. now rewrite !rstrip_sep_cons, IH.
Qed.

Lemma rstrip_sep_fixed (d' : string) (c : ascii) :
  Ascii.eqb c sep = false -> rstrip_sep (d' ++ String c "") = d' ++ String c "".
Proof.
  intros Hc. induction d' as [|a d' IH].
  - cbn. now rewrite Hc.
  - cbn [append]. rewrite rstrip_sep_cons, IH. now destruct d'.
Qed.

(** The directory part [split] returns is empty, or made of slashes, or
    ends with a character that is not a slash. *)
Lemma split_head_cases (p : string) :
  fst (split p) = ""
  \/ (only_sep (fst (split p)) = true /\ exists d', fst (split p) = d' ++ "/")
  \/ (exists d' c, fst (split p) = d' ++ String c "" /\ Ascii.eqb c sep = false).
Proof.
  unfold split. cbn [fst].
  destruct (rfind_cut p) as (h & t & -> & -> & _ & Hh).
  destruct (slices_at h t) as [-> _].
  destruct (String.eqb_spec h "") as [-> | Hne]; cbn [negb andb]; [now left|].
  destruct (rstrip_sep_cases h) as [[Ho _] | [Ho (d' & c & E & Hc)]]; rewrite Ho; cbn [negb].
  - right; left. split; [exact Ho|]. now apply only_sep_ends_sep.
  - right; right. now exists d', c.
Qed.

Lemma no_sep_not_startswith (name : string) :
  no_sep name = true -> startswith name "/" = false.
Proof.
  destruct name as [|c name]; [reflexivity|].
  cbn [no_sep]. rewrite andb_true_iff, negb_true_iff. intros [Hc _].
  change (startswith (String c name) "/")
    with (Ascii.eqb sep c && startswith name "").
  now rewrite Ascii.eqb_sym, Hc.
Qed.

Lemma not_endswith_sep (d' : string) (c : ascii) :
  Ascii.eqb c sep = false -> endswith (d' ++ String c "") "/" = false.
Proof.
  intros Hc. apply not_true_is_false. intros H.
  apply endswith_spec in H as [x H].
  assert (forall a b u v, a ++ String u "" = b ++ String v "" -> u = v) as Hlast.
  { induction a as [|a0 a IH]; intros [|b0 b] u v E; cbn in E.
    - now injection E.
    - injection E as _ E. destruct b; discriminate E.
    - injection E as _ E. destruct a; discriminate E.
    - injection E as _ E. now apply IH in E. }
  apply Hlast in H. subst c. discriminate Hc.
Qed.

(** Splitting the path that [join] builds in a directory returned by
    [split] gives the directory and the name back. *)
Lemma split_join (p name : string) :
  no_sep name = true ->
  split (join (fst (split p)) name) = (fst (split p), name).
Proof.
  intros Hname. unfold join. rewrite (no_sep_not_startswith name Hname).
  destruct (split_head_cases p) as [-> | [[Ho [d' E]] | (d' & c & E & Hc)]].
  - cbn [String.eqb orb append]. unfold split.
    rewrite (rfind_no_sep name Hname), Nat.sub_0_r, substring_whole.
    now destruct name.
  - rewrite E in *.
    assert (endswith (d' ++ "/") "/" = true) as ->
      by (apply endswith_spec; now exists d').
    rewrite orb_true_r. unfold split.
    rewrite (rfind_app_no_sep _ _ Hname), rfind_ends_sep.
    destruct (slices_at (d' ++ "/") name) as [-> ->].
    rewrite Ho, andb_false_r. reflexivity.
  - rewrite E.
    assert (String.eqb (d' ++ String c "") "" = false) as ->
      by (destruct d'; reflexivity).
    rewrite (not_endswith_sep d' c Hc). cbn [orb].
    rewrite <- append_assoc. unfold split.
    rewrite (rfind_app_no_sep _ _ Hname), rfind_ends_sep.
    destruct (slices_at ((d' ++ String c "") ++ "/") name) as [-> ->].
    assert (String.eqb ((d' ++ String c "") ++ "/") "" = false) as ->
      by (destruct d'; reflexivity).
    rewrite !only_sep_app. cbn [only_sep]. rewrite Hc, andb_false_r. cbn [negb andb].
    now rewrite rstrip_sep_app_sep, rstrip_sep_fixed.
Qed.

(** Different names without a slash give different neighbour paths. *)
Lemma neighborFilepath_injective (program n1 n2 : string) :
  no_sep n1 = true -> no_sep n2 = true ->
  neighborFilepath program n1 = neighborFilepath program n2 -> n1 = n2.
Proof.
  intros H1 H2 E. apply (f_equal split) in E.
  unfold neighborFilepath, currentDirPath in E.
  rewrite !split_join in E by assumption. now injection E.
Qed.

End PathLemmas.

(** X21.  A neighbour file is in the directory of the program: for a file
    name without a slash, [os.path.split] of [neighborFilepath(filename)]
    is the pair of [currentDirPath()] and the file name. *)
Theorem neighbor_is_in_program_directory (__file__ filename : string) :
  no_sep filename = true ->
  PosixPath.split (neighborFilepath __file__ filename)
  = (currentDirPath __file__, filename).
Proof.
  intros Hname. unfold neighborFilepath, currentDirPath.
  now apply split_join.
Qed.

Lemma neighbor_is_in_program_directory_witness :
  PosixPath.split (neighborFilepath "/opt/bot/refine_wordlist.py" REJECTED_WORDS_NAME)
  = (currentDirPath "/opt/bot/refine_wordlist.py", REJECTED_WORDS_NAME).
Proof.
  apply (neighbor_is_in_program_directory "/opt/bot/refine_wordlist.py" REJECTED_WORDS_NAME).
  reflexivity.
Defined.

(** X22.  The source list, the accepted list and the rejected list are
    three different paths wherever the program is: the program never reads
    its input from, or appends accepted words to, the file it appends
    rejected words to. *)
Theorem three_files_distinct (__file__ : string) :
  neighborFilepath __file__ SOURCE_WORDLIST_NAME
  <> neighborFilepath __file__ REJECTED_WORDS_NAME
  /\ neighborFilepath __file__ SOURCE_WORDLIST_NAME
     <> neighborFilepath __file__ NEW_WORDS_NAME
  /\ neighborFilepath __file__ REJECTED_WORDS_NAME
     <> neighborFilepath __file__ NEW_WORDS_NAME.
Proof.
  repeat split; intros E; apply neighborFilepath_injective in E;
    try reflexivity; discriminate E.
Qed.

(** X23.  When the program path has no slash (the program is started from
    its own directory by a relative name), [currentDirPath()] is empty and
    a neighbour path is the bare file name. *)
Theorem neighbor_of_bare_program_name (__file__ filename : string) :
  no_sep __file__ = true -> no_sep filename = true ->
  currentDirPath __file__ = "" /\ neighborFilepath __file__ filename = filename.
Proof.
  intros Hf Hname.
  assert (currentDirPath __file__ = "") as E.
  { unfold currentDirPath, PosixPath.split.
    rewrite (rfind_no_sep __file__ Hf). now destruct __file__. }
  split; [exact E|].
  unfold neighborFilepath, PosixPath.join.
  now rewrite E, (no_sep_not_startswith filename Hname).
Qed.

Lemma neighbor_of_bare_program_name_witness :
  currentDirPath "refine_wordlist.py" = ""
  /\ neighborFilepath "refine_wordlist.py" SOURCE_WORDLIST_NAME = SOURCE_WORDLIST_NAME.
Proof.
  apply (neighbor_of_bare_program_name "refine_wordlist.py" SOURCE_WORDLIST_NAME);
    reflexivity.
Defined.

(** ** Whole runs *)

Section WholeRuns.

Variable inputYesNo : list Event -> string -> bool -> bool.

(** With a user who always says yes, a new word is accepted, prompted or
    not. *)
Lemma body_yes_accepts (st : State) (w : string) :
  (forall shown message, inputYesNo shown message true = true) ->
  ~ In w (alreadyAccepted st) -> ~ In w (alreadyRejected st) ->
  accepted_step st w (main_loop_body inputYesNo st w).
Proof.
  intros Hyes Ha Hr.
  destruct (Nat.lt_ge_cases 3 (String.length (removesuffix (strip w) "'s")))
    as [Hlong | Hshort].
  - rewrite body_auto by assumption. now repeat split.
  - destruct (body_prompt inputYesNo st w Ha Hr Hshort)
      as (shown & answer & _ & Hans & _ & Hstep).
    rewrite Hyes in Hans. now subst answer.
Qed.

Lemma loop_yes_copies (source : list string) (st : State) :
  (forall shown message, inputYesNo shown message true = true) ->
  NoDup source ->
  (forall w, In w source -> ~ In w (alreadyAccepted st) /\ ~ In w (alreadyRejected st)) ->
  outFile (main_loop inputYesNo st source) = outFile st ++ written source
  /\ alreadyAccepted (main_loop inputYesNo st source)
     = (alreadyAccepted st ++ source)%list.
Proof.
  intros Hyes. revert st; induction source as [|w source IH]; intros st Hnd Hnew.
  - cbn. now rewrite append_nil_r, app_nil_r.
  - change (main_loop inputYesNo st (w :: source))
      with (main_loop inputYesNo (main_loop_body inputYesNo st w) source).
    apply NoDup_cons_iff in Hnd as [Hw Hnd].
    destruct (Hnew w (or_introl eq_refl)) as [Ha Hr].
    destruct (body_yes_accepts st w Hyes Ha Hr) as (Eo & Ea & Ef & Er).
    destruct (IH (main_loop_body inputYesNo st w) Hnd) as [Ho Hl].
    + intros x Hx. rewrite Ea, Er. destruct (Hnew x (or_intror Hx)) as [Hxa Hxr].
      split; [|exact Hxr]. intros K. apply in_app_or in K as [K | [<- | []]]; tauto.
    + rewrite Ho, Hl, Eo, Ea. cbn [written].
      now rewrite append_assoc, <- app_assoc.
Qed.

End WholeRuns.

(** X24.  In a directory with no history files, over a source list with no
    repeated line, a user who says yes to every prompt gets a copy: the
    run returns, the accepted file holds the text of the source file (with
    its line breaks translated) and the reject file is empty. *)
Theorem accept_all_copies_source
    (inputYesNo : list Event -> string -> bool -> bool) (src : string) :
  (forall shown message, inputYesNo shown message true = true) ->
  NoDup (readlines src) ->
  exists shown : list Event,
    main inputYesNo (mkFiles (Some src) None None)
    = Ok (mkFiles (Some src) (Some "") (Some (universal_newlines src)), shown).
Proof.
  intros Hyes Hnd.
  rewrite (main_ok inputYesNo (mkFiles (Some src) None None) src eq_refl). cbv zeta.
  destruct (loop_yes_copies inputYesNo (readlines src)
              (initial (mkFiles (Some src) None None)) Hyes Hnd) as [Ho _].
  { intros w _. split; intros []. }
  destruct (always_yes_reject_free inputYesNo (readlines src)
              (initial (mkFiles (Some src) None None)) Hyes) as [Hf _].
  rewrite Ho, Hf. unfold initial.
  cbn [outFile rejectFile open_a newlist_txt rejects_txt append].
  pose proof (written_splitlines (universal_newlines src)) as Hw.
  fold (readlines src) in Hw. rewrite Hw.
  eexists. reflexivity.
Qed.

Lemma accept_all_copies_source_witness :
  exists shown : list Event,
    main press_enter (mkFiles (Some ("cats" ++ String CR nl ++ "cat")) None None)
    = Ok (mkFiles (Some ("cats" ++ String CR nl ++ "cat")) (Some "")
                  (Some (universal_newlines ("cats" ++ String CR nl ++ "cat"))), shown).
Proof.
  apply (accept_all_copies_source press_enter ("cats" ++ String CR nl ++ "cat")).
  - reflexivity.
  - vm_compute. repeat constructor; cbn; intuition discriminate.
Defined.

(** X25.  Words that are decided already cost nothing: a run over a source
    list that starts with decided words does what a run over the rest of
    the list does.  So after new words are added at the end of the source
    list, the next run handles the additions only. *)
Theorem decided_prefix_is_skipped
    (inputYesNo : list Event -> string -> bool -> bool)
    (st : State) (old new : list string) :
  (forall w, In w old -> In w (alreadyAccepted st) \/ In w (alreadyRejected st)) ->
  main_loop inputYesNo st (old ++ new) = main_loop inputYesNo st new.
Proof.
  intros Hold. rewrite loop_app, (loop_all_known inputYesNo old st Hold). reflexivity.
Qed.

Lemma decided_prefix_is_skipped_witness :
  main_loop say_no (mkState (line "cats") (line "cat") [line "cats"] [line "cat"] [])
            ([line "cat"; line "cats"] ++ [line "dog"])
  = main_loop say_no (mkState (line "cats") (line "cat") [line "cats"] [line "cat"] [])
              [line "dog"].
Proof.
  apply (decided_prefix_is_skipped say_no
           (mkState (line "cats") (line "cat") [line "cats"] [line "cat"] [])
           [line "cat"; line "cats"] [line "dog"]).
  intros w [<- | [<- | []]]; cbn; tauto.
Defined.
